(** * adonis-ally: the OAuth2 drivers LinkedIn, Threads and TikTok

    A shallow embedding of [src/Drivers/LinkedIn.js] and of the Threads and
    TikTok drivers: the redirect options, the [getUser] / [getUserByToken]
    flows with their outbound HTTP calls, and the mapping of provider
    responses to an [AllyUser].

    Conventions of the embedding.
    - A JavaScript value is a [value]; an object is the list of its own
      properties in the order [Object.keys] lists them, each key once.
      Numbers are integers below 10^21 in magnitude, the ones JavaScript
      prints in plain decimal. Properties inherited from a prototype are not
      modelled.
    - Flat string maps (query parameters, redirect options) are [gmap]s.
    - An [async] method is a computation in [M]: it reads the outside world
      (HTTP transport and clock), appends every outbound request to a log and
      either returns or throws.
    - A method that assigns to a field of [this] returns the new driver. *)

From Stdlib Require Import ZArith Ascii String List.
From stdpp Require Import base option list strings gmap pretty.

Open Scope string_scope.
Open Scope list_scope.
Open Scope Z_scope.

(** ** JavaScript values *)

#[warnings="-register-all"]
Inductive value : Type :=
| VUndefined
| VNull
| VBool (b : bool)
| VNum (n : Z)
| VStr (s : string)
| VArr (elems : list value)
| VObj (props : list (string * value)).

(** ToBoolean. *)
Definition truthy (v : value) : bool :=
  match v with
  | VUndefined | VNull => false
  | VBool b => b
  | VNum n => negb (n =? 0)
  | VStr s => negb (String.eqb s "")
  | VArr _ | VObj _ => true
  end.

Definition nullish (v : value) : bool :=
  match v with
  | VUndefined | VNull => true
  | _ => false
  end.

(** [a || b] and [a && b] on values. *)
Definition js_or (a b : value) : value := if truthy a then a else b.
Definition js_and (a b : value) : value := if truthy a then b else a.

(** [a === b]. Two objects or arrays met by the drivers never are the same
    reference, so they compare unequal. *)
Definition strict_eq (a b : value) : bool :=
  match a, b with
  | VUndefined, VUndefined => true
  | VNull, VNull => true
  | VBool x, VBool y => Bool.eqb x y
  | VNum x, VNum y => x =? y
  | VStr x, VStr y => String.eqb x y
  | _, _ => false
  end.

Fixpoint assoc (k : string) (props : list (string * value)) : option value :=
  match props with
  | [] => None
  | (k', v) :: rest => if String.eqb k k' then Some v else assoc k rest
  end.

Fixpoint chars (s : string) : list value :=
  match s with
  | EmptyString => []
  | String c rest => VStr (String c EmptyString) :: chars rest
  end.

(** An array index written as a property key: ["0"], or digits that do not
    start with ["0"]. *)
Definition digit (c : ascii) : option nat :=
  let n := nat_of_ascii c in
  if ((48 <=? n) && (n <=? 57))%nat then Some (n - 48)%nat else None.

Fixpoint digits (s : string) (acc : nat) : option nat :=
  match s with
  | EmptyString => Some acc
  | String c rest =>
      match digit c with
      | Some d => digits rest (10 * acc + d)%nat
      | None => None
      end
  end.

Definition index_of_key (k : string) : option nat :=
  match k with
  | EmptyString => None
  | String c rest =>
      if Ascii.eqb c (Ascii.ascii_of_nat 48) then
        match rest with
        | EmptyString => Some 0%nat
        | _ => None
        end
      else digits k 0
  end.

Definition element (elems : list value) (k : string) : value :=
  if String.eqb k "length" then VNum (Z.of_nat (length elems))
  else match index_of_key k with
       | Some i => default VUndefined (elems !! i)
       | None => VUndefined
       end.

(** The value of [v.k] when [v] is neither [undefined] nor [null]. *)
Definition prop (v : value) (k : string) : value :=
  match v with
  | VObj props => default VUndefined (assoc k props)
  | VArr elems => element elems k
  | VStr s => element (chars s) k
  | _ => VUndefined
  end.

(** [Object.keys(v)[0]] as a property key; a missing first key reads as the
    key ["undefined"]. *)
Definition first_key (v : value) : string :=
  match v with
  | VObj ((k, _) :: _) => k
  | VArr (_ :: _) => "0"
  | VStr (String _ _) => "0"
  | _ => "undefined"
  end.

(** ToString, as a template literal applies it. A number is printed in
    plain decimal, as JavaScript prints an integer below 10^21 in
    magnitude. *)
Fixpoint toString (v : value) : string :=
  match v with
  | VUndefined => "undefined"
  | VNull => "null"
  | VBool true => "true"
  | VBool false => "false"
  | VNum n => pretty n
  | VStr s => s
  | VArr elems =>
      let elem x := if nullish x then "" else toString x in
      (fix join (l : list value) : string :=
         match l with
         | [] => ""
         | [x] => elem x
         | x :: rest => elem x +:+ "," +:+ join rest
         end) elems
  | VObj _ => "[object Object]"
  end.

(** ** Exceptions and results *)

Inductive exception : Type :=
| TokenExchangeException (message : value)
| InvalidState
| TypeError
| HTTPError (message : string).

Inductive result (A : Type) : Type :=
| Ok (a : A)
| Throw (e : exception).
Arguments Ok {A} a.
Arguments Throw {A} e.

#[export] Instance result_ret : MRet result := fun A x => Ok x.
#[export] Instance result_bind : MBind result := fun A B f r =>
  match r with
  | Ok x => f x
  | Throw e => Throw e
  end.

(** [v.k]: reading a property of [undefined] or [null] throws. *)
Definition get (v : value) (k : string) : result value :=
  if nullish v then Throw TypeError else Ok (prop v k).

(** [v[Object.keys(v)[0]]]: [Object.keys] throws on [undefined] and [null]. *)
Definition first_value (v : value) : result value :=
  if nullish v then Throw TypeError else get v (first_key v).

(** [k in Object(v)] for own properties. *)
Definition has_property (v : value) (k : string) : bool :=
  let indexed (elems : list value) :=
    String.eqb k "length"
    || match index_of_key k with
       | Some i => (i <? length elems)%nat
       | None => false
       end in
  match v with
  | VObj props => match assoc k props with Some _ => true | None => false end
  | VArr elems => indexed elems
  | VStr s => indexed (chars s)
  | _ => false
  end.

(** lodash [baseGet]: follow the keys of the path one after the other. *)
Fixpoint walk (v : value) (path : list string) : value :=
  match path with
  | [] => v
  | k :: rest => if nullish v then VUndefined else walk (prop v k) rest
  end.

(** lodash [_.get(v, 'k1.k2...')], the path given as its keys: when [v] has
    the whole dotted path as one property, that property is read; otherwise
    the keys are followed. It never throws. *)
Definition lodash_get (v : value) (path : list string) : value :=
  let whole := String.concat "." path in
  if negb (nullish v) && has_property v whole then prop v whole else walk v path.

(** [arr.find(e => e.type === 'EMAIL')] on the elements of an array. *)
Fixpoint find_EMAIL (elems : list value) : result value :=
  match elems with
  | [] => Ok VUndefined
  | e :: rest =>
      t ← get e "type";
      if strict_eq t (VStr "EMAIL") then Ok e else find_EMAIL rest
  end.

(** [v.find(e => e.type === 'EMAIL')]: only an array has [find]. *)
Definition find_by_type_EMAIL (v : value) : result value :=
  match v with
  | VArr elems => find_EMAIL elems
  | _ => Throw TypeError
  end.

(** ** The outside world: HTTP transport and clock *)

Inductive request : Type :=
| AccessTokenRequest (code : value) (redirectUri : string) (extras : value)
| GotRequest (url : string) (headers : list (string * value)).

Record world : Type := {
  transport : request -> string + value;
  clock : Z
}.

Definition M (A : Type) : Type :=
  world -> list request -> result A * list request.

#[export] Instance M_ret : MRet M := fun A x w log => (Ok x, log).
#[export] Instance M_bind : MBind M := fun A B f m w log =>
  match m w log with
  | (Ok x, log') => f x w log'
  | (Throw e, log') => (Throw e, log')
  end.

Definition throw {A : Type} (e : exception) : M A := fun w log => (Throw e, log).

Definition lift {A : Type} (r : result A) : M A := fun w log => (r, log).

Definition send (req : request) (failure : string -> exception) : M value :=
  fun w log =>
    (match transport w req with
     | inl message => Throw (failure message)
     | inr body => Ok body
     end, log ++ [req]).

(** [Date.now()] *)
Definition Date_now : M Z := fun w log => (Ok (clock w), log).

(** [got(url, { headers, json: true })] followed by [response.body]. *)
Definition got (url : string) (headers : list (string * value)) : M value :=
  send (GotRequest url headers) HTTPError.

(** ** The shared OAuth2 scheme *)

Module OAuth2Scheme.

(** What the constructor [super(clientId, clientSecret, headers)] keeps. *)
Record client : Type := {
  clientId : string;
  clientSecret : string;
  headers : gmap string string
}.

(** A redirect URL: the authorization endpoint and its query parameters. *)
Record url : Type := {
  url_base : string;
  url_path : string;
  url_query : gmap string string
}.

(** Modelled from the spec: [getUrl] of src/Schemes/OAuth2.js, which is not
    among the sources. The query always holds [client_id], [redirect_uri],
    [response_type=code] and [scope], the scopes joined with the
    separator; the extra options are merged in and win every collision
    except on [response_type]. *)
Definition getUrl (c : client) (baseUrl authorizeUrl scopeSeperator : string)
    (redirectUri : string) (scope : list string)
    (extras : gmap string string) : url :=
  let defaults : gmap string string :=
    <["client_id" := clientId c]>
      (<["redirect_uri" := redirectUri]>
         {["scope" := String.concat scopeSeperator scope]}) in
  {| url_base := baseUrl;
     url_path := authorizeUrl;
     url_query := <["response_type" := "code"]> (extras ∪ defaults) |}.

(** Modelled from the spec: [getAccessToken] of src/Schemes/OAuth2.js. One
    HTTP call to the token endpoint; the transport decides the token
    result, and a failure is a token exchange exception carrying the
    provider's message. *)
Definition getAccessToken (code : value) (redirectUri : string)
    (extras : value) : M value :=
  send (AccessTokenRequest code redirectUri extras)
       (fun message => TokenExchangeException (VStr message)).

End OAuth2Scheme.

(** ** The normalized user *)

(** [new Date(now + expires_in * 1000)], the product left as the provider's
    [expires_in] determines it. *)
Inductive date : Type :=
| NewDate (now : Z) (expires_in : value).

(** The fourth argument of [setToken]. *)
Inductive expiry : Type :=
| Expires (v : value)
| ExpiresNumber (v : value).   (* Number(v) *)

Record tokenFields : Type := {
  tk_accessToken : value;
  tk_refreshToken : value;
  tk_tokenSecret : value;
  tk_expires : expiry
}.

Record tokenInfo : Type := {
  ti_expiresIn : value;
  ti_expiresAt : option date;
  ti_tokenType : value
}.

(** Modelled from the spec: the class of src/AllyUser.js, which is not among
    the sources. [setOriginal] keeps the raw profile, [setFields] keeps its
    arguments by position (the first one is the id), [setToken] keeps the
    token bundle, access token first. *)
Record AllyUser : Type := {
  _original : value;
  _userFields : list value;
  _tokenFields : tokenFields;
  user_tokenInfo : option tokenInfo
}.

Definition setToken (accessToken refreshToken tokenSecret : value)
    (expires : expiry) : tokenFields :=
  {| tk_accessToken := accessToken;
     tk_refreshToken := refreshToken;
     tk_tokenSecret := tokenSecret;
     tk_expires := expires |}.

(** [expires ? Number(expires) : null] *)
Definition number_or_null (expires : value) : expiry :=
  if truthy expires then ExpiresNumber expires else Expires VNull.

(** ** Provider configuration *)

(** The object [Config.get('services.ally.<provider>')]. The three required
    keys are checked by [utils.validateDriverConfig] before the constructor
    goes on; an absent [scope], [fields], [options] or [headers] is empty. *)
Record config : Type := {
  cfg_clientId : string;
  cfg_clientSecret : string;
  cfg_redirectUri : string;
  cfg_scope : list string;
  cfg_fields : list string;
  cfg_options : gmap string string;
  cfg_headers : gmap string string
}.

(** [_.size(l) ? l : fallback] *)
Definition size_or {A : Type} (l fallback : list A) : list A :=
  match l with
  | [] => fallback
  | _ => l
  end.

(** [_.merge({ response_type: 'code' }, options)] *)
Definition merge_response_type (options : gmap string string) : gmap string string :=
  options ∪ {["response_type" := "code"]}.

(** [queryParams.k] read from the parsed query string. *)
Definition param (queryParams : gmap string string) (k : string) : value :=
  match queryParams !! k with
  | Some s => VStr s
  | None => VUndefined
  end.

(** The optional argument [originalState]. *)
Definition optional (s : option string) : value :=
  match s with
  | Some s => VStr s
  | None => VUndefined
  end.

(** [Object.assign(target, { k: v })] on a flat string map; the target is
    the object that is changed and returned. *)
Definition Object_assign (target : gmap string string) (k v : string) : gmap string string :=
  <[k := v]> target.

(** The double quote character, for URLs that spell JSON. *)
Definition dquote : string := String (Ascii.ascii_of_nat 34) EmptyString.

(** * The LinkedIn driver (src/Drivers/LinkedIn.js) *)

Module LinkedIn.

Record driver : Type := {
  client : OAuth2Scheme.client;
  _redirectUri : string;
  _redirectUriOptions : gmap string string;
  scope : list string;
  fields : list string
}.

Definition constructor (cfg : config) : driver :=
  {| client := {| OAuth2Scheme.clientId := cfg_clientId cfg;
                  OAuth2Scheme.clientSecret := cfg_clientSecret cfg;
                  OAuth2Scheme.headers := cfg_headers cfg |};
     _redirectUri := cfg_redirectUri cfg;
     _redirectUriOptions := merge_response_type (cfg_options cfg);
     scope := size_or (cfg_scope cfg) ["r_liteprofile"; "r_emailaddress"];
     fields := size_or (cfg_fields cfg)
                 ["id"; "firstName"; "lastName"; "localizedFirstName";
                  "localizedLastName"; "profilePicture"] |}.

Definition supportStates : bool := true.
Definition scopeSeperator : string := " ".
Definition baseUrl : string := "https://www.linkedin.com/oauth/v2".
Definition authorizeUrl : string := "authorization".
Definition accessTokenUrl : string := "accessToken".

Definition request_headers (accessToken : value) : list (string * value) :=
  [("x-li-format", VStr "json");
   ("Authorization", VStr ("Bearer " +:+ toString accessToken))].

Definition profileUrl (d : driver) : string :=
  "https://api.linkedin.com/v2/me?fields=" +:+ String.concat "," (fields d)
  +:+ "&projection=(" +:+ String.concat "," (fields d)
  +:+ "(displayImage~digitalmediaAsset:playableStreams))".

Definition _getUserProfile (d : driver) (accessToken : value) : M value :=
  got (profileUrl d) (request_headers accessToken).

Definition emailUrl : string :=
  "https://api.linkedin.com/v2/clientAwareMemberHandles?q=members&projection=(elements*(primary,type,handle~))".

Definition _getUserEmail (d : driver) (accessToken : value) : M value :=
  got emailUrl (request_headers accessToken).

(** [userProfile.k.localized[Object.keys(userProfile.k.localized)[0]]] *)
Definition first_localized (userProfile : value) (k : string) : result value :=
  name ← get userProfile k;
  localized ← get name "localized";
  first_value localized.

(** [emailAddress && emailAddress['handle~'] && emailAddress['handle~'].emailAddress] *)
Definition handle_emailAddress (emailAddress : value) : value :=
  js_and (js_and emailAddress (prop emailAddress "handle~"))
         (prop (prop emailAddress "handle~") "emailAddress").

Definition _buildAllyUser (userProfile email accessTokenResponse : value)
    : result AllyUser :=
  let expires := lodash_get accessTokenResponse ["result"; "expires_in"] in
  elements ← get email "elements";
  emailAddress ← find_by_type_EMAIL elements;
  id ← get userProfile "id";
  firstName ← first_localized userProfile "firstName";
  lastName ← first_localized userProfile "lastName";
  accessToken ← get accessTokenResponse "accessToken";
  refreshToken ← get accessTokenResponse "refreshToken";
  mret {| _original := userProfile;
          _userFields := [id; firstName; lastName;
                          handle_emailAddress emailAddress; VNull; VNull];
          _tokenFields :=
            setToken accessToken refreshToken VNull (number_or_null expires);
          user_tokenInfo := None |}.

(** The constant [options] of [getRedirectUrl], and the driver after the
    call: [Object.assign] writes into [this._redirectUriOptions]. *)
Definition redirect_options (state : option string) (d : driver)
    : gmap string string * driver :=
  match state with
  | Some s =>
      if truthy (VStr s) then
        let options := Object_assign (_redirectUriOptions d) "state" s in
        (options,
         {| client := client d; _redirectUri := _redirectUri d;
            _redirectUriOptions := options;
            scope := scope d; fields := fields d |})
      else (_redirectUriOptions d, d)
  | None => (_redirectUriOptions d, d)
  end.

Definition getRedirectUrl (state : option string) (d : driver)
    : OAuth2Scheme.url * driver :=
  let '(options, d') := redirect_options state d in
  (OAuth2Scheme.getUrl (client d') baseUrl authorizeUrl scopeSeperator
     (_redirectUri d') (scope d') options, d').

Definition parseRedirectError (queryParams : gmap string string) : value :=
  js_or (param queryParams "error_description") (VStr "Oauth failed during redirect").

Definition getUser (d : driver) (queryParams : gmap string string)
    (originalState : option string) : M AllyUser :=
  let code := param queryParams "code" in
  let state := param queryParams "state" in
  if negb (truthy code) then
    let errorMessage := parseRedirectError queryParams in
    throw (TokenExchangeException errorMessage)
  else if truthy state && negb (strict_eq (optional originalState) state) then
    throw InvalidState
  else
    accessTokenResponse ← OAuth2Scheme.getAccessToken code (_redirectUri d)
      (VObj [("grant_type", VStr "authorization_code")]);
    accessToken ← lift (get accessTokenResponse "accessToken");
    userProfile ← _getUserProfile d accessToken;
    accessToken' ← lift (get accessTokenResponse "accessToken");
    emailAddress ← _getUserEmail d accessToken';
    lift (_buildAllyUser userProfile emailAddress accessTokenResponse).

Definition getUserByToken (d : driver) (accessToken : string) : M AllyUser :=
  userProfile ← _getUserProfile d (VStr accessToken);
  lift (_buildAllyUser userProfile VNull
          (VObj [("accessToken", VStr accessToken); ("refreshToken", VNull)])).

End LinkedIn.

(** * The Threads driver without the long-lived token exchange (src/unnamed/part_000) *)

Module ThreadsBasic.

Record driver : Type := {
  client : OAuth2Scheme.client;
  _clientId : string;
  _clientSecret : string;
  _redirectUri : string;
  _redirectUriOptions : gmap string string;
  scope : list string
}.

Definition constructor (cfg : config) : driver :=
  {| client := {| OAuth2Scheme.clientId := cfg_clientId cfg;
                  OAuth2Scheme.clientSecret := cfg_clientSecret cfg;
                  OAuth2Scheme.headers := cfg_headers cfg |};
     _clientId := cfg_clientId cfg;
     _clientSecret := cfg_clientSecret cfg;
     _redirectUri := cfg_redirectUri cfg;
     _redirectUriOptions := merge_response_type (cfg_options cfg);
     scope := size_or (cfg_scope cfg) ["threads_basic"] |}.

Definition supportStates : bool := true.
Definition scopeSeperator : string := ",".
Definition baseUrl : string := "".
Definition authorizeUrl : string := "https://threads.net/oauth/authorize".
Definition accessTokenUrl : string := "https://graph.threads.net/oauth/access_token".

Definition profileUrl (accessToken : value) : string :=
  "https://graph.threads.net/v1.0/me?fields=id,username,name,threads_profile_picture_url,threads_biography&access_token="
  +:+ toString accessToken.

Definition _getUserProfile (d : driver) (accessTokenResponse : value) : M value :=
  accessToken ← lift (get accessTokenResponse "accessToken");
  got (profileUrl accessToken) [("Content-Type", VStr "application/json")].

(** The [console.log] of the source writes to the console only. *)
Definition _buildAllyUser (userProfile accessTokenResponse : value)
    : result AllyUser :=
  id ← get userProfile "id";
  username ← get userProfile "username";
  name ← get userProfile "name";
  picture ← get userProfile "threads_profile_picture_url";
  accessToken ← get accessTokenResponse "accessToken";
  mret {| _original := userProfile;
          _userFields := [id; username; VNull; name; picture];
          _tokenFields := setToken accessToken VNull VNull (Expires VNull);
          user_tokenInfo := None |}.

(** The constant [options] of [getRedirectUrl], and the driver after the
    call: [Object.assign] writes into [this._redirectUriOptions]. *)
Definition redirect_options (state : option string) (d : driver)
    : gmap string string * driver :=
  match state with
  | Some s =>
      if truthy (VStr s) then
        let options :=
          Object_assign (Object_assign (_redirectUriOptions d) "state" s)
                        "client_key" (_clientId d) in
        (options,
         {| client := client d; _clientId := _clientId d;
            _clientSecret := _clientSecret d; _redirectUri := _redirectUri d;
            _redirectUriOptions := options; scope := scope d |})
      else (_redirectUriOptions d, d)
  | None => (_redirectUriOptions d, d)
  end.

Definition getRedirectUrl (state : option string) (d : driver)
    : OAuth2Scheme.url * driver :=
  let '(options, d') := redirect_options state d in
  (OAuth2Scheme.getUrl (client d') baseUrl authorizeUrl scopeSeperator
     (_redirectUri d') (scope d') options, d').

Definition parseRedirectError (queryParams : gmap string string) : value :=
  js_or (param queryParams "error") (VStr "Oauth failed during redirect").

Definition token_extras : value :=
  VObj [("grant_type", VStr "authorization_code");
        ("headers", VObj [("Content-Type", VStr "application/json")])].

Definition getUser (d : driver) (queryParams : gmap string string)
    (originalState : option string) : M AllyUser :=
  let code := param queryParams "code" in
  let state := param queryParams "state" in
  if negb (truthy code) then
    let errorMessage := parseRedirectError queryParams in
    throw (TokenExchangeException errorMessage)
  else if truthy state && negb (strict_eq (optional originalState) state) then
    throw InvalidState
  else
    accessTokenResponse ← OAuth2Scheme.getAccessToken code (_redirectUri d)
      token_extras;
    userProfile ← _getUserProfile d accessTokenResponse;
    lift (_buildAllyUser userProfile accessTokenResponse).

(** [_getUserProfile] is handed the token string itself. *)
Definition getUserByToken (d : driver) (accessToken : string) : M AllyUser :=
  userProfile ← _getUserProfile d (VStr accessToken);
  lift (_buildAllyUser userProfile
          (VObj [("accessToken", VStr accessToken); ("refreshToken", VNull)])).

End ThreadsBasic.

(** * The TikTok driver (src/unnamed/part_002) *)

Module TikTok.

Record driver : Type := {
  client : OAuth2Scheme.client;
  _clientId : string;
  _clientSecret : string;
  _redirectUri : string;
  _redirectUriOptions : gmap string string;
  scope : list string
}.

Definition constructor (cfg : config) : driver :=
  {| client := {| OAuth2Scheme.clientId := cfg_clientId cfg;
                  OAuth2Scheme.clientSecret := cfg_clientSecret cfg;
                  OAuth2Scheme.headers := cfg_headers cfg |};
     _clientId := cfg_clientId cfg;
     _clientSecret := cfg_clientSecret cfg;
     _redirectUri := cfg_redirectUri cfg;
     _redirectUriOptions := merge_response_type (cfg_options cfg);
     scope := size_or (cfg_scope cfg) ["user.info.basic"; "user.info.username"] |}.

Definition supportStates : bool := true.
Definition scopeSeperator : string := ",".
Definition baseUrl : string := "".
Definition authorizeUrl : string := "https://www.tiktok.com/v2/auth/authorize".
Definition accessTokenUrl : string := "https://business-api.tiktok.com/open_api/v1.3/tt_user/oauth2/token/".

(** [accessTokenResponse.result.data.open_id] *)
Definition open_id (accessTokenResponse : value) : result value :=
  r ← get accessTokenResponse "result";
  data ← get r "data";
  get data "open_id".

Definition profile_fields : string :=
  "[" +:+ dquote +:+ "username" +:+ dquote +:+ ", "
      +:+ dquote +:+ "display_name" +:+ dquote +:+ ", "
      +:+ dquote +:+ "profile_image" +:+ dquote +:+ ", "
      +:+ dquote +:+ "followers_count" +:+ dquote +:+ "]".

Definition profileUrl (business_id : value) : string :=
  "https://business-api.tiktok.com/open_api/v1.3/business/get/?business_id="
  +:+ toString business_id +:+ "&fields=" +:+ profile_fields.

Definition _getUserProfile (d : driver) (accessTokenResponse : value) : M value :=
  business_id ← lift (open_id accessTokenResponse);
  accessToken ← lift (get accessTokenResponse "accessToken");
  got (profileUrl business_id)
      [("Content-Type", VStr "application/json"); ("Access-Token", accessToken)].

Definition _buildAllyUser (userProfile accessTokenResponse : value)
    : result AllyUser :=
  let expires := lodash_get accessTokenResponse ["result"; "expires_in"] in
  id ← open_id accessTokenResponse;
  data ← get userProfile "data";
  name ← get data "name";
  data' ← get userProfile "data";
  display_name ← get data' "display_name";
  data'' ← get userProfile "data";
  picture ← get data'' "profile_picture";
  accessToken ← get accessTokenResponse "accessToken";
  refreshToken ← get accessTokenResponse "refreshToken";
  mret {| _original := userProfile;
          _userFields := [id; name; VNull; display_name; picture];
          _tokenFields :=
            setToken accessToken refreshToken VNull (number_or_null expires);
          user_tokenInfo := None |}.

(** The constant [options] of [getRedirectUrl], and the driver after the
    call: [Object.assign] writes into [this._redirectUriOptions]. *)
Definition redirect_options (state : option string) (d : driver)
    : gmap string string * driver :=
  match state with
  | Some s =>
      if truthy (VStr s) then
        let options :=
          Object_assign (Object_assign (_redirectUriOptions d) "state" s)
                        "client_key" (_clientId d) in
        (options,
         {| client := client d; _clientId := _clientId d;
            _clientSecret := _clientSecret d; _redirectUri := _redirectUri d;
            _redirectUriOptions := options; scope := scope d |})
      else (_redirectUriOptions d, d)
  | None => (_redirectUriOptions d, d)
  end.

Definition getRedirectUrl (state : option string) (d : driver)
    : OAuth2Scheme.url * driver :=
  let '(options, d') := redirect_options state d in
  (OAuth2Scheme.getUrl (client d') baseUrl authorizeUrl scopeSeperator
     (_redirectUri d') (scope d') options, d').

Definition parseRedirectError (queryParams : gmap string string) : value :=
  js_or (param queryParams "error") (VStr "Oauth failed during redirect").

Definition token_extras : value :=
  VObj [("grant_type", VStr "authorization_code");
        ("headers", VObj [("Content-Type", VStr "application/json")])].

Definition getUser (d : driver) (queryParams : gmap string string)
    (originalState : option string) : M AllyUser :=
  let code := param queryParams "code" in
  let state := param queryParams "state" in
  if negb (truthy code) then
    let errorMessage := parseRedirectError queryParams in
    throw (TokenExchangeException errorMessage)
  else if truthy state && negb (strict_eq (optional originalState) state) then
    throw InvalidState
  else
    accessTokenResponse ← OAuth2Scheme.getAccessToken code (_redirectUri d)
      token_extras;
    userProfile ← _getUserProfile d accessTokenResponse;
    lift (_buildAllyUser userProfile accessTokenResponse).

(** [_getUserProfile] is handed the token string itself. *)
Definition getUserByToken (d : driver) (accessToken : string) : M AllyUser :=
  userProfile ← _getUserProfile d (VStr accessToken);
  lift (_buildAllyUser userProfile
          (VObj [("accessToken", VStr accessToken); ("refreshToken", VNull)])).

End TikTok.

(** * The Threads driver with the long-lived token exchange (src/unnamed/part_001) *)

Module Threads.

Record driver : Type := {
  client : OAuth2Scheme.client;
  _clientId : string;
  _clientSecret : string;
  _redirectUri : string;
  _redirectUriOptions : gmap string string;
  scope : list string
}.

Definition constructor (cfg : config) : driver :=
  {| client := {| OAuth2Scheme.clientId := cfg_clientId cfg;
                  OAuth2Scheme.clientSecret := cfg_clientSecret cfg;
                  OAuth2Scheme.headers := cfg_headers cfg |};
     _clientId := cfg_clientId cfg;
     _clientSecret := cfg_clientSecret cfg;
     _redirectUri := cfg_redirectUri cfg;
     _redirectUriOptions := merge_response_type (cfg_options cfg);
     scope := size_or (cfg_scope cfg) ["threads_basic"] |}.

Definition supportStates : bool := true.
Definition scopeSeperator : string := ",".
Definition baseUrl : string := "".
Definition authorizeUrl : string := "https://threads.net/oauth/authorize".
Definition accessTokenUrl : string := "https://graph.threads.net/oauth/access_token".

(** The token objects this driver builds itself: the result of the
    long-lived exchange and the literal of [getUserByToken]. A property
    the object lacks reads as [undefined]. *)
Record tokenResponse : Type := {
  tr_accessToken : value;
  tr_tokenType : value;
  tr_expiresIn : value;
  tr_expiresAt : option date
}.

Definition json_headers : list (string * value) :=
  [("Content-Type", VStr "application/json")].

Definition profileUrl (accessToken : value) : string :=
  "https://graph.threads.net/v1.0/me?fields=id,username,name,threads_profile_picture_url,threads_biography&access_token="
  +:+ toString accessToken.

Definition _getUserProfile (d : driver) (accessTokenResponse : tokenResponse)
    : M value :=
  got (profileUrl (tr_accessToken accessTokenResponse)) json_headers.

Definition exchangeUrl (d : driver) (shortLivedToken : value) : string :=
  "https://graph.threads.net/access_token?grant_type=th_exchange_token&client_secret="
  +:+ _clientSecret d +:+ "&access_token=" +:+ toString shortLivedToken.

(** The object literal both token exchanges return from a response body. *)
Definition token_of_body (body : value) : M tokenResponse :=
  access_token ← lift (get body "access_token");
  token_type ← lift (get body "token_type");
  expires_in ← lift (get body "expires_in");
  now ← Date_now;
  expires_in' ← lift (get body "expires_in");
  mret {| tr_accessToken := access_token;
          tr_tokenType := token_type;
          tr_expiresIn := expires_in;
          tr_expiresAt := Some (NewDate now expires_in') |}.

Definition _exchangeForLongLivedToken (d : driver) (shortLivedToken : value)
    : M tokenResponse :=
  body ← got (exchangeUrl d shortLivedToken) json_headers;
  token_of_body body.

Definition refreshUrl (longLivedToken : value) : string :=
  "https://graph.threads.net/refresh_access_token?grant_type=th_refresh_token&access_token="
  +:+ toString longLivedToken.

Definition refreshLongLivedToken (d : driver) (longLivedToken : value)
    : M tokenResponse :=
  body ← got (refreshUrl longLivedToken) json_headers;
  token_of_body body.

(** [expiresAt] is the time value of the Date in milliseconds; [now] is
    read once from the clock. *)
Definition shouldRefreshToken (w : world) (expiresAt : Z) : bool :=
  let now := clock w in
  let oneDayFromNow := now + 24 * 60 * 60 * 1000 in
  (expiresAt <=? oneDayFromNow) && (expiresAt >? now).

Definition _buildAllyUser (userProfile : value)
    (accessTokenResponse : tokenResponse) : result AllyUser :=
  id ← get userProfile "id";
  username ← get userProfile "username";
  name ← get userProfile "name";
  picture ← get userProfile "threads_profile_picture_url";
  mret {| _original := userProfile;
          _userFields := [id; username; VNull; name; picture];
          _tokenFields :=
            setToken (tr_accessToken accessTokenResponse) VNull VNull
              (Expires (js_or (tr_expiresIn accessTokenResponse) VNull));
          user_tokenInfo :=
            Some {| ti_expiresIn := tr_expiresIn accessTokenResponse;
                    ti_expiresAt := tr_expiresAt accessTokenResponse;
                    ti_tokenType :=
                      js_or (tr_tokenType accessTokenResponse) (VStr "bearer") |} |}.

(** The constant [options] of [getRedirectUrl], and the driver after the
    call: [Object.assign] writes into [this._redirectUriOptions]. *)
Definition redirect_options (state : option string) (d : driver)
    : gmap string string * driver :=
  match state with
  | Some s =>
      if truthy (VStr s) then
        let options :=
          Object_assign (Object_assign (_redirectUriOptions d) "state" s)
                        "client_key" (_clientId d) in
        (options,
         {| client := client d; _clientId := _clientId d;
            _clientSecret := _clientSecret d; _redirectUri := _redirectUri d;
            _redirectUriOptions := options; scope := scope d |})
      else (_redirectUriOptions d, d)
  | None => (_redirectUriOptions d, d)
  end.

Definition getRedirectUrl (state : option string) (d : driver)
    : OAuth2Scheme.url * driver :=
  let '(options, d') := redirect_options state d in
  (OAuth2Scheme.getUrl (client d') baseUrl authorizeUrl scopeSeperator
     (_redirectUri d') (scope d') options, d').

Definition parseRedirectError (queryParams : gmap string string) : value :=
  js_or (param queryParams "error") (VStr "Oauth failed during redirect").

Definition token_extras : value :=
  VObj [("grant_type", VStr "authorization_code");
        ("headers", VObj [("Content-Type", VStr "application/json")])].

Definition getUser (d : driver) (queryParams : gmap string string)
    (originalState : option string) : M AllyUser :=
  let code := param queryParams "code" in
  let state := param queryParams "state" in
  if negb (truthy code) then
    let errorMessage := parseRedirectError queryParams in
    throw (TokenExchangeException errorMessage)
  else if truthy state && negb (strict_eq (optional originalState) state) then
    throw InvalidState
  else
    shortLivedTokenResponse ← OAuth2Scheme.getAccessToken code (_redirectUri d)
      token_extras;
    shortLivedToken ← lift (get shortLivedTokenResponse "accessToken");
    longLivedTokenResponse ← _exchangeForLongLivedToken d shortLivedToken;
    userProfile ← _getUserProfile d longLivedTokenResponse;
    lift (_buildAllyUser userProfile longLivedTokenResponse).

(** The literal [{ accessToken }]; its [refreshToken: null] twin handed to
    [_buildAllyUser] is read at [accessToken], [expiresIn], [expiresAt]
    and [tokenType] only. *)
Definition token_literal (accessToken : string) : tokenResponse :=
  {| tr_accessToken := VStr accessToken;
     tr_tokenType := VUndefined;
     tr_expiresIn := VUndefined;
     tr_expiresAt := None |}.

Definition getUserByToken (d : driver) (accessToken : string) : M AllyUser :=
  userProfile ← _getUserProfile d (token_literal accessToken);
  lift (_buildAllyUser userProfile (token_literal accessToken)).

End Threads.

(** * Notions used to state the properties *)

(** The computation throws [e] and sends no request: the log it is started
    with comes back unchanged, so a second call behaves as the first. *)
Definition fails_without_effect {A : Type} (m : M A) (e : exception) : Prop :=
  forall w log,
    m w log = (Throw e, log) /\ m w (snd (m w log)) = m w log.

(** The computation ends in an invalid state exception. *)
Definition invalid_state_raised {A : Type} (m : M A) (w : world)
    (log : list request) : Prop :=
  fst (m w log) = Throw InvalidState.

(** The callback carries a non-empty [state] that is not the original one. *)
Definition state_mismatch (queryParams : gmap string string)
    (originalState : option string) : Prop :=
  exists s, queryParams !! "state" = Some s /\ s <> "" /\ originalState <> Some s.

(** A mismatching state is rejected before any request is sent, and only a
    callback that has a code gets as far as the state check: the same
    callback without its code does not end in an invalid state exception. *)
Definition rejects_mismatch_before_exchange
    (getUser : gmap string string -> option string -> M AllyUser)
    (queryParams : gmap string string) (originalState : option string) : Prop :=
  fails_without_effect (getUser queryParams originalState) InvalidState /\
  forall w log,
    ~ invalid_state_raised (getUser (delete "code" queryParams) originalState) w log.


(** A non-empty state put into the redirect URL comes back in its query as
    it went in, and [getUser] called with it as the original state accepts a
    callback that returns it. *)
Definition state_round_trip {D : Type}
    (getRedirectUrl : option string -> D -> OAuth2Scheme.url * D)
    (getUser : D -> gmap string string -> option string -> M AllyUser)
    (s : string) : Prop :=
  (forall d, OAuth2Scheme.url_query (fst (getRedirectUrl (Some s) d)) !! "state" = Some s) /\
  (forall d (q : gmap string string) w log,
     q !! "state" = Some s -> ~ invalid_state_raised (getUser d q (Some s)) w log).

(** What [redirect_options] hands to [getUrl] on a driver fresh from its
    constructor: without a state (absent or empty) the configured options
    with [response_type=code] merged under them, whatever they are; with a
    non-empty state, these options with [state] set to it and [client_key]
    set to the client id. *)
Definition fresh_redirect_options (cfg : config)
    (redirect_options : option string -> gmap string string) : Prop :=
  (forall state,
     truthy (optional state) = false ->
     redirect_options state = cfg_options cfg ∪ {["response_type" := "code"]}) /\
  (forall s,
     s <> "" ->
     redirect_options (Some s)
     = <["client_key" := cfg_clientId cfg]>
         (<["state" := s]> (cfg_options cfg ∪ {["response_type" := "code"]}))).

(** The message [parseRedirectError] derives from the provider's error
    field: the field when it is a non-empty string, the generic text
    otherwise. *)
Definition redirect_error_message (field : option string) : value :=
  match field with
  | Some e => if String.eqb e "" then VStr "Oauth failed during redirect" else VStr e
  | None => VStr "Oauth failed during redirect"
  end.

(** Every exception of the computation satisfies [P]. *)
Definition raises_only {A : Type} (P : exception -> Prop) (m : M A) : Prop :=
  forall w log e, fst (m w log) = Throw e -> P e.

Definition throws_only {A : Type} (P : exception -> Prop) (r : result A) : Prop :=
  forall e, r = Throw e -> P e.

(** The exceptions of a flow that went past both checks: the transport's
    failures and the type errors of property reads. *)
Definition past_the_checks (e : exception) : Prop :=
  match e with
  | InvalidState => False
  | _ => True
  end.

(** The first localized variant of the name [k] of a LinkedIn profile. *)
Definition localized_name (userProfile : value) (k : string) : value :=
  let localized := prop (prop userProfile k) "localized" in
  prop localized (first_key localized).

(** ** A sample configuration and a transport that answers every request *)

Definition sample_config : config :=
  {| cfg_clientId := "client-1";
     cfg_clientSecret := "secret-1";
     cfg_redirectUri := "https://app.example/callback";
     cfg_scope := [];
     cfg_fields := [];
     cfg_options := ∅;
     cfg_headers := ∅ |}.

Definition sample_token : value :=
  VObj [("accessToken", VStr "short-T");
        ("refreshToken", VNull);
        ("result", VObj [("access_token", VStr "short-T");
                         ("expires_in", VNum 3600);
                         ("data", VObj [("open_id", VStr "42")])])].

Definition sample_long_lived_body : value :=
  VObj [("access_token", VStr "long-T");
        ("token_type", VStr "bearer");
        ("expires_in", VNum 5184000)].

Definition sample_email : value :=
  VObj [("elements",
         VArr [VObj [("type", VStr "EMAIL");
                     ("handle~", VObj [("emailAddress", VStr "alice@example.com")])]])].

Definition sample_profile : value :=
  VObj [("id", VStr "42");
        ("username", VStr "alice");
        ("firstName", VObj [("localized", VObj [("en_US", VStr "Alice")])]);
        ("lastName", VObj [("localized", VObj [("en_US", VStr "Doe")])]);
        ("data", VObj [("name", VStr "alice")])].

Definition sample_world : world :=
  {| transport := fun req =>
       match req with
       | AccessTokenRequest _ _ _ => inr sample_token
       | GotRequest url _ =>
           if String.prefix "https://graph.threads.net/access_token" url
           then inr sample_long_lived_body
           else if String.prefix "https://api.linkedin.com/v2/clientAwareMemberHandles" url
           then inr sample_email
           else inr sample_profile
       end;
     clock := 1700000000000 |}.

(** A callback with a code and the state ["s"]. *)
Definition sample_callback : gmap string string :=
  <["code" := "c"]> (<["state" := "s"]> ∅).



(** A callback with a code and an empty state. *)
Definition empty_state_callback : gmap string string :=
  <["code" := "c"]> (<["state" := ""]> ∅).

(** A callback without a code whose error fields are empty. *)
Definition empty_error_callback : gmap string string :=
  <["error" := ""]> (<["error_description" := ""]> ∅).

(** ** Notions for the further properties *)

(** A request made with [got], as opposed to the exchange of a code. *)
Definition is_got (req : request) : Prop :=
  match req with
  | GotRequest _ _ => True
  | AccessTokenRequest _ _ _ => False
  end.

(** The time value in milliseconds of the Date [new Date(now + expires_in *
    1000)] for an [expires_in] that is a number. *)
Definition date_time (d : date) : option Z :=
  match d with
  | NewDate now (VNum n) => Some (now + n * 1000)
  | NewDate _ _ => None
  end.

(** The code exchange of a driver failed with [message]: the run ends in the
    token exchange exception that carries the message, and the exchange is
    the only request it sent. *)
Definition stops_at_failed_exchange (m : M AllyUser) (w : world)
    (exchange : request) (message : string) : Prop :=
  forall log,
    m w log = (Throw (TokenExchangeException (VStr message)), log ++ [exchange]).

(** The run sends at most [n] requests, all of them made with [got]. *)
Definition gots_at_most {A : Type} (n : nat) (m : M A) : Prop :=
  forall w log,
    exists extra,
      snd (m w log) = log ++ extra /\ (length extra <= n)%nat /\ Forall is_got extra.

(** The run sends nothing, or it sends [exchange] first and then at most
    [n] requests, all of them made with [got]. *)
Definition exchange_then_gots {A : Type} (n : nat) (exchange : request) (m : M A) : Prop :=
  forall w log,
    snd (m w log) = log \/
    exists gots,
      snd (m w log) = log ++ exchange :: gots /\
      (length gots <= n)%nat /\ Forall is_got gots.

(** The exceptions of a flow that only fetches and maps a profile. *)
Definition fetch_failure (e : exception) : Prop :=
  match e with
  | TypeError | HTTPError _ => True
  | TokenExchangeException _ | InvalidState => False
  end.

(** A transport that turns every request down. *)
Definition failing_world : world :=
  {| transport := fun _ => inl "invalid_grant";
     clock := 1700000000000 |}.

(** A callback whose code is the empty string. *)
Definition empty_code_callback : gmap string string :=
  <["code" := ""]> (<["error" := "access_denied"]> ∅).

(** What a call of [getRedirectUrl] with the non-empty state [s] leaves in
    the driver [d]: the options of the driver have become [after d]; a later
    call without a state uses these options as they are and changes
    nothing; a later call with another non-empty state replaces the
    state. *)
Definition state_is_kept {D : Type} (options : D -> gmap string string)
    (redirect_options : option string -> D -> gmap string string * D)
    (after : D -> gmap string string) (s : string) (d : D) : Prop :=
  let d1 := snd (redirect_options (Some s) d) in
  options d1 = after d /\
  (forall state,
     truthy (optional state) = false -> redirect_options state d1 = (after d, d1)) /\
  (forall s',
     s' <> "" -> options (snd (redirect_options (Some s') d1)) !! "state" = Some s').

(** What a constructor derives from the configuration: the configured
    options with [response_type=code] added unless the configuration sets
    [response_type] itself, and a scope list that is the configured one
    unless that is empty, and never empty. *)
Definition constructed_from (cfg : config) (options : gmap string string)
    (scope : list string) : Prop :=
  options !! "response_type" = Some (default "code" (cfg_options cfg !! "response_type")) /\
  (forall k, k <> "response_type" -> options !! k = cfg_options cfg !! k) /\
  scope <> [] /\
  (cfg_scope cfg = [] \/ scope = cfg_scope cfg).

(** The first element whose [type] is ["EMAIL"], or [undefined]. *)
Definition first_EMAIL (elems : list value) : value :=
  default VUndefined
    (List.find (fun e => strict_eq (prop e "type") (VStr "EMAIL")) elems).

(** A transport that answers every request with a long-lived token. *)
Definition token_world : world :=
  {| transport := fun _ => inr sample_long_lived_body;
     clock := 1700000000000 |}.

(** The run only adds to the log, and when it ends in an HTTP error the
    request that failed with that message is the last one it sent. *)
Definition failure_is_last {A : Type} (m : M A) : Prop :=
  forall w log,
    exists extra,
      snd (m w log) = log ++ extra /\
      forall message,
        fst (m w log) = Throw (HTTPError message) ->
        exists pre url headers,
          extra = pre ++ [GotRequest url headers] /\
          transport w (GotRequest url headers) = inl message.

(** * Properties *)

(** ** Running computations *)

Lemma bind_run {A B : Type} (m : M A) (f : A -> M B) (w : world) (log : list request) :
  (m ≫= f) w log =
  match m w log with
  | (Ok x, log') => f x w log'
  | (Throw e, log') => (Throw e, log')
  end.
Proof. reflexivity. Qed.

Lemma bind_Ok {A B : Type} (m : M A) (f : A -> M B) w log b log' :
  (m ≫= f) w log = (Ok b, log') ->
  exists a log1, m w log = (Ok a, log1) /\ f a w log1 = (Ok b, log').
Proof.
  rewrite bind_run. destruct (m w log) as [[a|e] log1]; [|discriminate].
  intros H. exists a, log1. split; [reflexivity|exact H].
Qed.

Lemma send_Ok req failure w log v log' :
  send req failure w log = (Ok v, log') ->
  transport w req = inr v /\ log' = log ++ [req].
Proof.
  unfold send. destruct (transport w req) as [msg|body]; [discriminate|].
  intros H. injection H as -> <-. split; reflexivity.
Qed.

Lemma lift_Ok {A : Type} (r : result A) w log a log' :
  lift r w log = (Ok a, log') -> r = Ok a /\ log' = log.
Proof. unfold lift. intros H. injection H as -> <-. split; reflexivity. Qed.

Lemma result_bind_Ok {A B : Type} (r : result A) (f : A -> result B) b :
  r ≫= f = Ok b -> exists a, r = Ok a /\ f a = Ok b.
Proof. destruct r as [a|e]; [|discriminate]. intros H. exists a. split; [reflexivity|exact H]. Qed.

Lemma get_Ok v k x : get v k = Ok x -> nullish v = false /\ x = prop v k.
Proof. unfold get. destruct (nullish v); [discriminate|]. intros H. injection H as <-. split; reflexivity. Qed.

Lemma get_not_nullish v k : nullish v = false -> get v k = Ok (prop v k).
Proof. unfold get. intros ->. reflexivity. Qed.

(** ** Which exceptions a computation can raise *)

Lemma raises_only_bind {A B : Type} P (m : M A) (f : A -> M B) :
  raises_only P m -> (forall a, raises_only P (f a)) -> raises_only P (m ≫= f).
Proof.
  intros Hm Hf w log e. rewrite bind_run.
  specialize (Hm w log). destruct (m w log) as [[a|e'] log1]; simpl in *.
  - apply Hf.
  - intros H. injection H as <-. apply Hm. reflexivity.
Qed.

Lemma raises_only_ret {A : Type} P (a : A) : raises_only P (mret a).
Proof. intros w log e H. discriminate H. Qed.

Lemma raises_only_send P req failure :
  (forall message, P (failure message)) -> raises_only P (send req failure).
Proof.
  intros H w log e. unfold send. simpl.
  destruct (transport w req); intros E; [|discriminate].
  injection E as <-. apply H.
Qed.

Lemma raises_only_lift {A : Type} P (r : result A) :
  throws_only P r -> raises_only P (lift r).
Proof. intros H w log e E. apply H. exact E. Qed.

Lemma raises_only_Date_now P : raises_only P Date_now.
Proof. intros w log e H. discriminate H. Qed.

Lemma throws_only_bind {A B : Type} P (r : result A) (f : A -> result B) :
  throws_only P r -> (forall a, throws_only P (f a)) -> throws_only P (r ≫= f).
Proof.
  intros Hr Hf e. destruct r as [a|e']; simpl.
  - apply Hf.
  - intros H. injection H as <-. apply Hr. reflexivity.
Qed.

Lemma throws_only_ret {A : Type} P (a : A) : throws_only P (mret a : result A).
Proof. intros e H. discriminate H. Qed.

Lemma throws_only_get P v k : P TypeError -> throws_only P (get v k).
Proof.
  intros H e. unfold get. destruct (nullish v); intros E; [|discriminate].
  injection E as <-. exact H.
Qed.

Lemma throws_only_first_value P v : P TypeError -> throws_only P (first_value v).
Proof.
  intros H e. unfold first_value. destruct (nullish v).
  - intros E. injection E as <-. exact H.
  - apply throws_only_get. exact H.
Qed.

Lemma throws_only_find_EMAIL P elems : P TypeError -> throws_only P (find_EMAIL elems).
Proof.
  intros H. induction elems as [|x rest IH]; simpl.
  - intros e E. discriminate E.
  - apply throws_only_bind; [apply throws_only_get; exact H|].
    intros t. destruct (strict_eq t (VStr "EMAIL")); [|exact IH].
    intros e E. discriminate E.
Qed.

Lemma throws_only_find_by_type_EMAIL P v :
  P TypeError -> throws_only P (find_by_type_EMAIL v).
Proof.
  intros H. destruct v; simpl; try (intros e E; injection E as <-; exact H).
  apply throws_only_find_EMAIL. exact H.
Qed.

Ltac throws_only_steps :=
  repeat first
    [ apply throws_only_ret
    | apply throws_only_get
    | apply throws_only_first_value
    | apply throws_only_find_by_type_EMAIL
    | assumption
    | apply throws_only_bind; [|intros ?] ].

Lemma LinkedIn_build_throws_only P userProfile email token :
  P TypeError -> throws_only P (LinkedIn._buildAllyUser userProfile email token).
Proof.
  intros H. unfold LinkedIn._buildAllyUser, LinkedIn.first_localized.
  throws_only_steps.
Qed.

Lemma ThreadsBasic_build_throws_only P userProfile token :
  P TypeError -> throws_only P (ThreadsBasic._buildAllyUser userProfile token).
Proof. intros H. unfold ThreadsBasic._buildAllyUser. throws_only_steps. Qed.

Lemma TikTok_open_id_throws_only P token :
  P TypeError -> throws_only P (TikTok.open_id token).
Proof. intros H. unfold TikTok.open_id. throws_only_steps. Qed.

Lemma TikTok_build_throws_only P userProfile token :
  P TypeError -> throws_only P (TikTok._buildAllyUser userProfile token).
Proof.
  intros H. unfold TikTok._buildAllyUser.
  apply throws_only_bind; [apply TikTok_open_id_throws_only; exact H|intros ?].
  throws_only_steps.
Qed.

Lemma Threads_build_throws_only P userProfile token :
  P TypeError -> throws_only P (Threads._buildAllyUser userProfile token).
Proof. intros H. unfold Threads._buildAllyUser. throws_only_steps. Qed.

Lemma getAccessToken_past_the_checks code redirectUri extras :
  raises_only past_the_checks (OAuth2Scheme.getAccessToken code redirectUri extras).
Proof. apply raises_only_send. intros message. exact I. Qed.

Lemma got_past_the_checks url headers : raises_only past_the_checks (got url headers).
Proof. apply raises_only_send. intros message. exact I. Qed.

Ltac past_the_checks_steps :=
  repeat first
    [ apply raises_only_ret
    | apply raises_only_Date_now
    | apply getAccessToken_past_the_checks
    | apply got_past_the_checks
    | apply raises_only_lift;
      first [ apply LinkedIn_build_throws_only
            | apply ThreadsBasic_build_throws_only
            | apply TikTok_build_throws_only
            | apply TikTok_open_id_throws_only
            | apply Threads_build_throws_only
            | apply throws_only_get ]; exact I
    | apply raises_only_bind; [|intros ?] ].

(** ** The two checks at the head of [getUser] *)

Lemma truthy_param_code (q : gmap string string) code :
  q !! "code" = Some code -> code <> "" -> truthy (param q "code") = true.
Proof.
  intros Hq Hne. unfold param. rewrite Hq. simpl.
  destruct (String.eqb_spec code ""); [contradiction|reflexivity].
Qed.

Lemma state_check_true (q : gmap string string) orig :
  truthy (param q "state") && negb (strict_eq (optional orig) (param q "state")) = true
  <-> state_mismatch q orig.
Proof.
  unfold state_mismatch, param. destruct (q !! "state") as [s|]; simpl.
  - destruct (String.eqb_spec s "") as [->|Hs]; simpl.
    + split; [discriminate|]. intros (s' & E & Hne & _). injection E as <-. contradiction.
    + destruct orig as [o|]; simpl.
      * destruct (String.eqb_spec o s) as [->|Hos]; simpl.
        -- split; [discriminate|]. intros (s' & E & _ & Hd). injection E as <-. contradiction.
        -- split; [|reflexivity]. intros _. exists s. repeat split; [exact Hs|].
           intros E. injection E as ->. contradiction.
      * split; [|reflexivity]. intros _. exists s. repeat split; [exact Hs|discriminate].
  - split; [discriminate|]. intros (s' & E & _). discriminate E.
Qed.

Lemma throw_invalid_state_raised {A : Type} w log :
  invalid_state_raised (throw InvalidState : M A) w log.
Proof. reflexivity. Qed.

Lemma past_the_checks_not_raised {A : Type} (m : M A) w log :
  raises_only past_the_checks m -> ~ invalid_state_raised m w log.
Proof. intros H E. exact (H w log InvalidState E). Qed.

Lemma fails_without_effect_throw {A : Type} e : fails_without_effect (throw e : M A) e.
Proof. intros w log. split; reflexivity. Qed.

Section Checks.

Variables (q : gmap string string) (orig : option string).

Let check : bool :=
  truthy (param q "state") && negb (strict_eq (optional orig) (param q "state")).

Lemma LinkedIn_no_code d :
  truthy (param q "code") = false ->
  LinkedIn.getUser d q orig =
  throw (TokenExchangeException (LinkedIn.parseRedirectError q)).
Proof. intros H. unfold LinkedIn.getUser. rewrite H. reflexivity. Qed.

Lemma ThreadsBasic_no_code d :
  truthy (param q "code") = false ->
  ThreadsBasic.getUser d q orig =
  throw (TokenExchangeException (ThreadsBasic.parseRedirectError q)).
Proof. intros H. unfold ThreadsBasic.getUser. rewrite H. reflexivity. Qed.

Lemma TikTok_no_code d :
  truthy (param q "code") = false ->
  TikTok.getUser d q orig =
  throw (TokenExchangeException (TikTok.parseRedirectError q)).
Proof. intros H. unfold TikTok.getUser. rewrite H. reflexivity. Qed.

Lemma Threads_no_code d :
  truthy (param q "code") = false ->
  Threads.getUser d q orig =
  throw (TokenExchangeException (Threads.parseRedirectError q)).
Proof. intros H. unfold Threads.getUser. rewrite H. reflexivity. Qed.

Lemma LinkedIn_bad_state d :
  truthy (param q "code") = true -> check = true ->
  LinkedIn.getUser d q orig = throw InvalidState.
Proof. unfold check. intros H C. unfold LinkedIn.getUser. rewrite H, C. reflexivity. Qed.

Lemma ThreadsBasic_bad_state d :
  truthy (param q "code") = true -> check = true ->
  ThreadsBasic.getUser d q orig = throw InvalidState.
Proof. unfold check. intros H C. unfold ThreadsBasic.getUser. rewrite H, C. reflexivity. Qed.

Lemma TikTok_bad_state d :
  truthy (param q "code") = true -> check = true ->
  TikTok.getUser d q orig = throw InvalidState.
Proof. unfold check. intros H C. unfold TikTok.getUser. rewrite H, C. reflexivity. Qed.

Lemma Threads_bad_state d :
  truthy (param q "code") = true -> check = true ->
  Threads.getUser d q orig = throw InvalidState.
Proof. unfold check. intros H C. unfold Threads.getUser. rewrite H, C. reflexivity. Qed.

Lemma LinkedIn_good_state d :
  truthy (param q "code") = true -> check = false ->
  raises_only past_the_checks (LinkedIn.getUser d q orig).
Proof.
  unfold check. intros H C. unfold LinkedIn.getUser. rewrite H, C. simpl.
  unfold LinkedIn._getUserProfile, LinkedIn._getUserEmail.
  past_the_checks_steps.
Qed.

Lemma ThreadsBasic_good_state d :
  truthy (param q "code") = true -> check = false ->
  raises_only past_the_checks (ThreadsBasic.getUser d q orig).
Proof.
  unfold check. intros H C. unfold ThreadsBasic.getUser. rewrite H, C. simpl.
  unfold ThreadsBasic._getUserProfile.
  past_the_checks_steps.
Qed.

Lemma TikTok_good_state d :
  truthy (param q "code") = true -> check = false ->
  raises_only past_the_checks (TikTok.getUser d q orig).
Proof.
  unfold check. intros H C. unfold TikTok.getUser. rewrite H, C. simpl.
  unfold TikTok._getUserProfile.
  past_the_checks_steps.
Qed.

Lemma Threads_good_state d :
  truthy (param q "code") = true -> check = false ->
  raises_only past_the_checks (Threads.getUser d q orig).
Proof.
  unfold check. intros H C. unfold Threads.getUser. rewrite H, C. simpl.
  unfold Threads._exchangeForLongLivedToken, Threads.token_of_body,
    Threads._getUserProfile.
  past_the_checks_steps.
Qed.

End Checks.

(** ** State validation *)

Section StateValidation.

Variables (q : gmap string string) (orig : option string) (code : string).
Hypothesis has_code : q !! "code" = Some code.
Hypothesis code_not_empty : code <> "".

Let code_truthy : truthy (param q "code") = true :=
  truthy_param_code q code has_code code_not_empty.

Lemma LinkedIn_invalid_state_iff d w log :
  invalid_state_raised (LinkedIn.getUser d q orig) w log <-> state_mismatch q orig.
Proof.
  rewrite <- state_check_true.
  destruct (truthy (param q "state") && _) eqn:C.
  - rewrite (LinkedIn_bad_state q orig d code_truthy C).
    split; [reflexivity|]. intros _. apply throw_invalid_state_raised.
  - split; [|discriminate]. intros H. exfalso. revert H.
    apply past_the_checks_not_raised, LinkedIn_good_state; assumption.
Qed.

Lemma ThreadsBasic_invalid_state_iff d w log :
  invalid_state_raised (ThreadsBasic.getUser d q orig) w log <-> state_mismatch q orig.
Proof.
  rewrite <- state_check_true.
  destruct (truthy (param q "state") && _) eqn:C.
  - rewrite (ThreadsBasic_bad_state q orig d code_truthy C).
    split; [reflexivity|]. intros _. apply throw_invalid_state_raised.
  - split; [|discriminate]. intros H. exfalso. revert H.
    apply past_the_checks_not_raised, ThreadsBasic_good_state; assumption.
Qed.

Lemma TikTok_invalid_state_iff d w log :
  invalid_state_raised (TikTok.getUser d q orig) w log <-> state_mismatch q orig.
Proof.
  rewrite <- state_check_true.
  destruct (truthy (param q "state") && _) eqn:C.
  - rewrite (TikTok_bad_state q orig d code_truthy C).
    split; [reflexivity|]. intros _. apply throw_invalid_state_raised.
  - split; [|discriminate]. intros H. exfalso. revert H.
    apply past_the_checks_not_raised, TikTok_good_state; assumption.
Qed.

Lemma Threads_invalid_state_iff d w log :
  invalid_state_raised (Threads.getUser d q orig) w log <-> state_mismatch q orig.
Proof.
  rewrite <- state_check_true.
  destruct (truthy (param q "state") && _) eqn:C.
  - rewrite (Threads_bad_state q orig d code_truthy C).
    split; [reflexivity|]. intros _. apply throw_invalid_state_raised.
  - split; [|discriminate]. intros H. exfalso. revert H.
    apply past_the_checks_not_raised, Threads_good_state; assumption.
Qed.

End StateValidation.

(** C1, as the drivers implement it. For a callback that has a code, [getUser]
    ends in an invalid state exception if and only if the state the provider
    returned is non-empty and the original state is not that very string. The
    guard is on the returned state: a callback without a state, or with an
    empty one, passes whatever the original state is. *)
Theorem getUser_invalid_state_iff (q : gmap string string) (orig : option string)
    (code : string) (w : world) (log : list request) :
  q !! "code" = Some code -> code <> "" ->
  (forall d, invalid_state_raised (LinkedIn.getUser d q orig) w log
             <-> state_mismatch q orig) /\
  (forall d, invalid_state_raised (ThreadsBasic.getUser d q orig) w log
             <-> state_mismatch q orig) /\
  (forall d, invalid_state_raised (TikTok.getUser d q orig) w log
             <-> state_mismatch q orig) /\
  (forall d, invalid_state_raised (Threads.getUser d q orig) w log
             <-> state_mismatch q orig).
Proof.
  intros Hq Hne. repeat split; intros H.
  all: first
    [ eapply LinkedIn_invalid_state_iff; eassumption
    | eapply ThreadsBasic_invalid_state_iff; eassumption
    | eapply TikTok_invalid_state_iff; eassumption
    | eapply Threads_invalid_state_iff; eassumption ].
Qed.

Lemma getUser_invalid_state_iff_witness :
  sample_callback !! "code" = Some "c" /\
  (forall d, invalid_state_raised (Threads.getUser d sample_callback None)
               sample_world []
             <-> state_mismatch sample_callback None).
Proof.
  split; [reflexivity|].
  apply (getUser_invalid_state_iff sample_callback None "c" sample_world []);
    [reflexivity|discriminate].
Defined.

(** C1 as stated fails: with no original state at all and the state ["s"] in
    the callback, the check does not pass; [getUser] throws the invalid state
    exception at once. *)
Lemma getUser_absent_original_state_rejected :
  LinkedIn.getUser (LinkedIn.constructor sample_config) sample_callback None
    sample_world [] = (Throw InvalidState, []) /\
  Threads.getUser (Threads.constructor sample_config) sample_callback None
    sample_world [] = (Throw InvalidState, []).
Proof. split; reflexivity. Qed.

(** ** A callback without a code *)

Lemma js_or_redirect_error_message (q : gmap string string) k :
  js_or (param q k) (VStr "Oauth failed during redirect")
  = redirect_error_message (q !! k).
Proof.
  unfold js_or, param, redirect_error_message.
  destruct (q !! k) as [e|]; simpl; [|reflexivity].
  destruct (String.eqb e ""); reflexivity.
Qed.

Lemma param_absent (q : gmap string string) k :
  q !! k = None -> truthy (param q k) = false.
Proof. unfold param. intros ->. reflexivity. Qed.

(** C2, as the drivers implement it. For every callback without a [code],
    [getUser] throws the token exchange exception and sends no request, so a
    second call behaves as the first. The message is the provider's error
    field ([error_description] for LinkedIn, [error] for Threads and TikTok)
    when that field is a non-empty string, and ["Oauth failed during
    redirect"] otherwise. *)
Theorem getUser_without_code (q : gmap string string) (orig : option string) :
  q !! "code" = None ->
  (forall d, fails_without_effect (LinkedIn.getUser d q orig)
     (TokenExchangeException (redirect_error_message (q !! "error_description")))) /\
  (forall d, fails_without_effect (ThreadsBasic.getUser d q orig)
     (TokenExchangeException (redirect_error_message (q !! "error")))) /\
  (forall d, fails_without_effect (TikTok.getUser d q orig)
     (TokenExchangeException (redirect_error_message (q !! "error")))) /\
  (forall d, fails_without_effect (Threads.getUser d q orig)
     (TokenExchangeException (redirect_error_message (q !! "error")))).
Proof.
  intros Hq. pose proof (param_absent q "code" Hq) as Hc.
  split; [|split; [|split]]; intros d.
  - rewrite (LinkedIn_no_code q orig d Hc). unfold LinkedIn.parseRedirectError.
    rewrite js_or_redirect_error_message. apply fails_without_effect_throw.
  - rewrite (ThreadsBasic_no_code q orig d Hc). unfold ThreadsBasic.parseRedirectError.
    rewrite js_or_redirect_error_message. apply fails_without_effect_throw.
  - rewrite (TikTok_no_code q orig d Hc). unfold TikTok.parseRedirectError.
    rewrite js_or_redirect_error_message. apply fails_without_effect_throw.
  - rewrite (Threads_no_code q orig d Hc). unfold Threads.parseRedirectError.
    rewrite js_or_redirect_error_message. apply fails_without_effect_throw.
Qed.

Lemma getUser_without_code_witness :
  empty_error_callback !! "code" = None /\
  (forall d, fails_without_effect (LinkedIn.getUser d empty_error_callback (Some "s"))
     (TokenExchangeException (VStr "Oauth failed during redirect"))).
Proof.
  split; [reflexivity|].
  apply (getUser_without_code empty_error_callback (Some "s")). reflexivity.
Defined.

(** C2 as stated fails on the message: for a callback without a code whose
    error fields are present and empty, the message is neither the
    provider's field nor the text ["OAuth failed during redirect"]; the
    drivers spell it ["Oauth failed during redirect"]. *)
Lemma getUser_without_code_message :
  empty_error_callback !! "code" = None /\
  empty_error_callback !! "error_description" = Some "" /\
  empty_error_callback !! "error" = Some "" /\
  LinkedIn.getUser (LinkedIn.constructor sample_config) empty_error_callback None
    sample_world []
  = (Throw (TokenExchangeException (VStr "Oauth failed during redirect")), []) /\
  ThreadsBasic.getUser (ThreadsBasic.constructor sample_config) empty_error_callback
    None sample_world []
  = (Throw (TokenExchangeException (VStr "Oauth failed during redirect")), []) /\
  "Oauth failed during redirect" <> "" /\
  "Oauth failed during redirect" <> "OAuth failed during redirect".
Proof. repeat split; try reflexivity; discriminate. Qed.

(** ** A state that differs from the original one *)

Lemma state_mismatch_intro (q : gmap string string) orig s :
  q !! "state" = Some s -> s <> "" -> orig <> Some s -> state_mismatch q orig.
Proof. intros Hs Hne Hd. exists s. repeat split; assumption. Qed.

Lemma delete_code_no_code (q : gmap string string) :
  truthy (param (delete "code" q) "code") = false.
Proof. apply param_absent. apply lookup_delete_eq. Qed.

Lemma throw_token_exchange_not_invalid {A : Type} message w log :
  ~ invalid_state_raised (throw (TokenExchangeException message) : M A) w log.
Proof. intros H. discriminate H. Qed.

(** C3, as the drivers implement it. For every callback with a non-empty
    [code] and a non-empty [state] that is not the original state, [getUser]
    throws the invalid state exception and sends no request: the check comes
    before the exchange of the code. It comes after the check for the code:
    the same callback without its code ends in the token exchange exception
    instead. *)
Theorem getUser_state_mismatch_before_exchange (q : gmap string string)
    (orig : option string) (code s : string) :
  q !! "code" = Some code -> code <> "" ->
  q !! "state" = Some s -> s <> "" -> orig <> Some s ->
  (forall d, rejects_mismatch_before_exchange (LinkedIn.getUser d) q orig) /\
  (forall d, rejects_mismatch_before_exchange (ThreadsBasic.getUser d) q orig) /\
  (forall d, rejects_mismatch_before_exchange (TikTok.getUser d) q orig) /\
  (forall d, rejects_mismatch_before_exchange (Threads.getUser d) q orig).
Proof.
  intros Hq Hne Hs Hsne Hd.
  pose proof (truthy_param_code q code Hq Hne) as Hc.
  pose proof (proj2 (state_check_true q orig) (state_mismatch_intro q orig s Hs Hsne Hd)) as C.
  pose proof (delete_code_no_code q) as Hn.
  split; [|split; [|split]]; intros d; (split; [|intros w log]).
  - rewrite (LinkedIn_bad_state q orig d Hc C). apply fails_without_effect_throw.
  - rewrite (LinkedIn_no_code _ orig d Hn). apply throw_token_exchange_not_invalid.
  - rewrite (ThreadsBasic_bad_state q orig d Hc C). apply fails_without_effect_throw.
  - rewrite (ThreadsBasic_no_code _ orig d Hn). apply throw_token_exchange_not_invalid.
  - rewrite (TikTok_bad_state q orig d Hc C). apply fails_without_effect_throw.
  - rewrite (TikTok_no_code _ orig d Hn). apply throw_token_exchange_not_invalid.
  - rewrite (Threads_bad_state q orig d Hc C). apply fails_without_effect_throw.
  - rewrite (Threads_no_code _ orig d Hn). apply throw_token_exchange_not_invalid.
Qed.

Lemma getUser_state_mismatch_before_exchange_witness :
  sample_callback !! "code" = Some "c" /\
  sample_callback !! "state" = Some "s" /\
  (forall d, rejects_mismatch_before_exchange (TikTok.getUser d) sample_callback
               (Some "other")).
Proof.
  split; [reflexivity|]. split; [reflexivity|].
  apply (getUser_state_mismatch_before_exchange sample_callback (Some "other") "c" "s");
    first [reflexivity | discriminate].
Defined.

(** C3 as stated fails for an empty state: the callback holds a code and the
    state [""], the original state is ["xyz"], and [getUser] goes on to
    exchange the code, fetch the profile and return a user. *)
Lemma getUser_empty_state_not_rejected :
  empty_state_callback !! "code" = Some "c" /\
  empty_state_callback !! "state" = Some "" /\
  Some "xyz" <> empty_state_callback !! "state" /\
  (exists u,
     fst (LinkedIn.getUser (LinkedIn.constructor sample_config) empty_state_callback
            (Some "xyz") sample_world []) = Ok u) /\
  length (snd (LinkedIn.getUser (LinkedIn.constructor sample_config)
                 empty_state_callback (Some "xyz") sample_world [])) = 3%nat /\
  (exists u,
     fst (TikTok.getUser (TikTok.constructor sample_config) empty_state_callback
            (Some "xyz") sample_world []) = Ok u) /\
  length (snd (TikTok.getUser (TikTok.constructor sample_config)
                 empty_state_callback (Some "xyz") sample_world [])) = 2%nat.
Proof.
  repeat split; try reflexivity; try discriminate.
  all: eexists; vm_compute; reflexivity.
Qed.

(** ** The long-lived token chain of Threads *)

Lemma param_truthy_inv (q : gmap string string) k :
  truthy (param q k) = true -> exists s, q !! k = Some s /\ param q k = VStr s /\ s <> "".
Proof.
  unfold param. destruct (q !! k) as [s|]; simpl; [|discriminate].
  intros H. exists s. repeat split. intros ->. discriminate H.
Qed.

Lemma token_of_body_Ok body w log t log' :
  Threads.token_of_body body w log = (Ok t, log') ->
  nullish body = false /\ log' = log /\
  t = {| Threads.tr_accessToken := prop body "access_token";
         Threads.tr_tokenType := prop body "token_type";
         Threads.tr_expiresIn := prop body "expires_in";
         Threads.tr_expiresAt := Some (NewDate (clock w) (prop body "expires_in")) |}.
Proof.
  unfold Threads.token_of_body, Date_now, get, lift.
  rewrite !bind_run. destruct (nullish body); [discriminate|].
  simpl. intros H. injection H as <- <-. repeat split.
Qed.





(** ** The refresh window *)

(** C5. [shouldRefreshToken] answers [true] exactly when the expiry lies
    after now and at most 24 hours (in milliseconds) after now; it answers
    [false] for a token that has expired and for one that is not due yet. *)
Theorem shouldRefreshToken_window (w : world) (expiresAt : Z) :
  (Threads.shouldRefreshToken w expiresAt = true
   <-> clock w < expiresAt <= clock w + 24 * 60 * 60 * 1000) /\
  (expiresAt <= clock w -> Threads.shouldRefreshToken w expiresAt = false) /\
  (expiresAt > clock w + 24 * 60 * 60 * 1000 ->
   Threads.shouldRefreshToken w expiresAt = false).
Proof.
  unfold Threads.shouldRefreshToken. cbv zeta.
  rewrite andb_true_iff, Z.leb_le, Z.gtb_lt.
  split; [lia|]. split; intros H.
  - apply andb_false_iff. right. rewrite Z.gtb_ltb. apply Z.ltb_ge. lia.
  - apply andb_false_iff. left. apply Z.leb_gt. lia.
Qed.

Lemma shouldRefreshToken_window_witness :
  Threads.shouldRefreshToken sample_world (clock sample_world + 3600000) = true /\
  Threads.shouldRefreshToken sample_world (clock sample_world) = false /\
  Threads.shouldRefreshToken sample_world (clock sample_world + 86400001) = false.
Proof.
  pose proof (shouldRefreshToken_window sample_world (clock sample_world + 3600000)) as [H1 _].
  pose proof (shouldRefreshToken_window sample_world (clock sample_world)) as (_ & H2 & _).
  pose proof (shouldRefreshToken_window sample_world (clock sample_world + 86400001)) as (_ & _ & H3).
  split; [apply H1; simpl; lia|]. split; [apply H2; lia|apply H3; simpl; lia].
Defined.

(** ** The mapping to an [AllyUser] *)






(** ** [getUserByToken] *)

(** C7, where the code departs from it. [getUserByToken] of TikTok hands
    the token string to [_getUserProfile], which reads [result.data] of it:
    the call throws a type error before any request. [getUserByToken] of
    LinkedIn fetches the profile and then hands [null] as the e-mail resource
    to [_buildAllyUser], which reads [email.elements]: the call never returns
    a user, whatever the profile response, while [getUser] maps the same
    profile response to a user. *)
Theorem getUserByToken_never_returns_a_user :
  (forall (d : TikTok.driver) (accessToken : string) w log,
     TikTok.getUserByToken d accessToken w log = (Throw TypeError, log)) /\
  (forall (d : LinkedIn.driver) (accessToken : string) w log,
     exists e,
       LinkedIn.getUserByToken d accessToken w log
       = (Throw e,
          log ++ [GotRequest (LinkedIn.profileUrl d)
                    (LinkedIn.request_headers (VStr accessToken))])) /\
  LinkedIn.getUserByToken (LinkedIn.constructor sample_config) "short-T"
    sample_world []
  = (Throw TypeError,
     [GotRequest (LinkedIn.profileUrl (LinkedIn.constructor sample_config))
        (LinkedIn.request_headers (VStr "short-T"))]) /\
  (exists u,
     fst (LinkedIn.getUser (LinkedIn.constructor sample_config) sample_callback
            (Some "s") sample_world []) = Ok u /\
     _original u = sample_profile /\
     _userFields u !! 0%nat = Some (VStr "42")).
Proof.
  split; [|split; [|split]].
  - intros d accessToken w log. reflexivity.
  - intros d accessToken w log.
    unfold LinkedIn.getUserByToken, LinkedIn._getUserProfile, got.
    rewrite bind_run. unfold send.
    destruct (transport w _) as [message|body]; eexists; reflexivity.
  - reflexivity.
  - eexists. split; [vm_compute; reflexivity|]. split; reflexivity.
Qed.

(** ** [getUserByToken] of Threads *)

(** [getUserByToken] of Threads (src/unnamed/part_001), when it returns a
    user, has sent one request only, the profile fetch by the URL that
    carries the token it was given as its [access_token]; the user holds
    that token, and its identity fields are those
    [_buildAllyUser] gives for the same profile with any other token result,
    the long-lived one of [getUser] included. *)
Theorem Threads_getUserByToken_maps_like_getUser (d : Threads.driver)
    (accessToken : string) (w : world) (log log' : list request) (u : AllyUser) :
  Threads.getUserByToken d accessToken w log = (Ok u, log') ->
  exists userProfile,
    let profileFetch :=
      GotRequest
        ("https://graph.threads.net/v1.0/me?fields=id,username,name,threads_profile_picture_url,threads_biography&access_token="
         +:+ accessToken)
        [("Content-Type", VStr "application/json")] in
    transport w profileFetch = inr userProfile /\
    log' = log ++ [profileFetch] /\
    _original u = userProfile /\
    tk_accessToken (_tokenFields u) = VStr accessToken /\
    forall token u',
      Threads._buildAllyUser userProfile token = Ok u' ->
      _userFields u' = _userFields u.
Proof.
  unfold Threads.getUserByToken, Threads._getUserProfile, got. intros H.
  apply bind_Ok in H as (userProfile & log1 & Hsend & H).
  apply send_Ok in Hsend as [Ht ->].
  apply lift_Ok in H as [Hb ->].
  exists userProfile. cbv zeta. split; [exact Ht|]. split; [reflexivity|].
  revert Hb. unfold Threads._buildAllyUser, get.
  destruct (nullish userProfile); [discriminate|]. simpl.
  intros Hb. injection Hb as <-. simpl. repeat split.
  intros token u' Hu'. injection Hu' as <-. reflexivity.
Qed.

Lemma Threads_getUserByToken_maps_like_getUser_witness :
  exists u log',
    Threads.getUserByToken (Threads.constructor sample_config) "long-T"
      sample_world [] = (Ok u, log') /\
    exists userProfile,
      log'
      = [] ++ [GotRequest
                 "https://graph.threads.net/v1.0/me?fields=id,username,name,threads_profile_picture_url,threads_biography&access_token=long-T"
                 [("Content-Type", VStr "application/json")]] /\
      _original u = userProfile /\
      tk_accessToken (_tokenFields u) = VStr "long-T".
Proof.
  eexists. eexists. split; [vm_compute; reflexivity|].
  destruct (Threads_getUserByToken_maps_like_getUser (Threads.constructor sample_config)
              "long-T" sample_world [] _ _ eq_refl) as (p & _ & Hlog & Ho & Hk & _).
  exists p. split; [exact Hlog|]. split; [exact Ho|exact Hk].
Defined.

(** ** The redirect options *)

Lemma truthy_VStr s : s <> "" -> truthy (VStr s) = true.
Proof. intros H. simpl. destruct (String.eqb_spec s ""); [contradiction|reflexivity]. Qed.

Lemma falsy_optional state :
  truthy (optional state) = false -> state = None \/ state = Some "".
Proof.
  destruct state as [s|]; simpl; [|left; reflexivity].
  destruct (String.eqb_spec s "") as [->|]; [right; reflexivity|discriminate].
Qed.

Lemma merge_response_type_lookup (options : gmap string string) k :
  k <> "response_type" -> merge_response_type options !! k = options !! k.
Proof.
  intros Hk. unfold merge_response_type.
  destruct (options !! k) as [v|] eqn:E.
  - apply lookup_union_Some_l. exact E.
  - apply lookup_union_None. split; [exact E|]. apply lookup_singleton_ne. congruence.
Qed.

Section RedirectOptions.

Variable s : string.
Hypothesis s_not_empty : s <> "".

Lemma LinkedIn_redirect_options_state d :
  LinkedIn.redirect_options (Some s) d
  = (<["state" := s]> (LinkedIn._redirectUriOptions d),
     {| LinkedIn.client := LinkedIn.client d;
        LinkedIn._redirectUri := LinkedIn._redirectUri d;
        LinkedIn._redirectUriOptions := <["state" := s]> (LinkedIn._redirectUriOptions d);
        LinkedIn.scope := LinkedIn.scope d;
        LinkedIn.fields := LinkedIn.fields d |}).
Proof. unfold LinkedIn.redirect_options. rewrite (truthy_VStr s s_not_empty). reflexivity. Qed.

Lemma ThreadsBasic_redirect_options_state d :
  fst (ThreadsBasic.redirect_options (Some s) d)
  = <["client_key" := ThreadsBasic._clientId d]>
      (<["state" := s]> (ThreadsBasic._redirectUriOptions d)).
Proof. unfold ThreadsBasic.redirect_options. rewrite (truthy_VStr s s_not_empty). reflexivity. Qed.

Lemma TikTok_redirect_options_state d :
  fst (TikTok.redirect_options (Some s) d)
  = <["client_key" := TikTok._clientId d]>
      (<["state" := s]> (TikTok._redirectUriOptions d)).
Proof. unfold TikTok.redirect_options. rewrite (truthy_VStr s s_not_empty). reflexivity. Qed.

Lemma Threads_redirect_options_state d :
  fst (Threads.redirect_options (Some s) d)
  = <["client_key" := Threads._clientId d]>
      (<["state" := s]> (Threads._redirectUriOptions d)).
Proof. unfold Threads.redirect_options. rewrite (truthy_VStr s s_not_empty). reflexivity. Qed.

End RedirectOptions.

Lemma LinkedIn_getRedirectUrl_query state d :
  OAuth2Scheme.url_query (fst (LinkedIn.getRedirectUrl state d))
  = <["response_type" := "code"]>
      (fst (LinkedIn.redirect_options state d)
       ∪ <["client_id" := OAuth2Scheme.clientId (LinkedIn.client d)]>
           (<["redirect_uri" := LinkedIn._redirectUri d]>
              {["scope" := String.concat LinkedIn.scopeSeperator (LinkedIn.scope d)]})).
Proof.
  unfold LinkedIn.getRedirectUrl, LinkedIn.redirect_options.
  destruct state as [s|]; [destruct (truthy (VStr s))|]; reflexivity.
Qed.

Lemma ThreadsBasic_getRedirectUrl_query state d :
  OAuth2Scheme.url_query (fst (ThreadsBasic.getRedirectUrl state d))
  = <["response_type" := "code"]>
      (fst (ThreadsBasic.redirect_options state d)
       ∪ <["client_id" := OAuth2Scheme.clientId (ThreadsBasic.client d)]>
           (<["redirect_uri" := ThreadsBasic._redirectUri d]>
              {["scope" := String.concat ThreadsBasic.scopeSeperator (ThreadsBasic.scope d)]})).
Proof.
  unfold ThreadsBasic.getRedirectUrl, ThreadsBasic.redirect_options.
  destruct state as [s|]; [destruct (truthy (VStr s))|]; reflexivity.
Qed.

Lemma TikTok_getRedirectUrl_query state d :
  OAuth2Scheme.url_query (fst (TikTok.getRedirectUrl state d))
  = <["response_type" := "code"]>
      (fst (TikTok.redirect_options state d)
       ∪ <["client_id" := OAuth2Scheme.clientId (TikTok.client d)]>
           (<["redirect_uri" := TikTok._redirectUri d]>
              {["scope" := String.concat TikTok.scopeSeperator (TikTok.scope d)]})).
Proof.
  unfold TikTok.getRedirectUrl, TikTok.redirect_options.
  destruct state as [s|]; [destruct (truthy (VStr s))|]; reflexivity.
Qed.

Lemma Threads_getRedirectUrl_query state d :
  OAuth2Scheme.url_query (fst (Threads.getRedirectUrl state d))
  = <["response_type" := "code"]>
      (fst (Threads.redirect_options state d)
       ∪ <["client_id" := OAuth2Scheme.clientId (Threads.client d)]>
           (<["redirect_uri" := Threads._redirectUri d]>
              {["scope" := String.concat Threads.scopeSeperator (Threads.scope d)]})).
Proof.
  unfold Threads.getRedirectUrl, Threads.redirect_options.
  destruct state as [s|]; [destruct (truthy (VStr s))|]; reflexivity.
Qed.

Lemma query_lookup_extra (extras defaults : gmap string string) k v :
  k <> "response_type" -> extras !! k = Some v ->
  (<["response_type" := "code"]> (extras ∪ defaults)) !! k = Some v.
Proof.
  intros Hk He. rewrite lookup_insert_ne by congruence.
  apply lookup_union_Some_l. exact He.
Qed.

(** ** State validation accepts the state that was sent *)

Lemma no_mismatch_with_itself (q : gmap string string) s :
  q !! "state" = Some s -> ~ state_mismatch q (Some s).
Proof. intros Hq (s' & E & _ & Hd). rewrite Hq in E. injection E as <-. contradiction. Qed.

Section RoundTrip.

Variables (q : gmap string string) (s : string).
Hypothesis returned : q !! "state" = Some s.

Let check_passes :
  truthy (param q "state") && negb (strict_eq (optional (Some s)) (param q "state")) = false.
Proof.
  destruct (truthy _ && _) eqn:C; [|reflexivity].
  apply state_check_true in C. exfalso. exact (no_mismatch_with_itself q s returned C).
Qed.

Lemma LinkedIn_round_trip d w log :
  ~ invalid_state_raised (LinkedIn.getUser d q (Some s)) w log.
Proof.
  destruct (truthy (param q "code")) eqn:Hc.
  - apply past_the_checks_not_raised, LinkedIn_good_state; [exact Hc|exact check_passes].
  - rewrite (LinkedIn_no_code q (Some s) d Hc). discriminate.
Qed.

Lemma ThreadsBasic_round_trip d w log :
  ~ invalid_state_raised (ThreadsBasic.getUser d q (Some s)) w log.
Proof.
  destruct (truthy (param q "code")) eqn:Hc.
  - apply past_the_checks_not_raised, ThreadsBasic_good_state; [exact Hc|exact check_passes].
  - rewrite (ThreadsBasic_no_code q (Some s) d Hc). discriminate.
Qed.

Lemma TikTok_round_trip d w log :
  ~ invalid_state_raised (TikTok.getUser d q (Some s)) w log.
Proof.
  destruct (truthy (param q "code")) eqn:Hc.
  - apply past_the_checks_not_raised, TikTok_good_state; [exact Hc|exact check_passes].
  - rewrite (TikTok_no_code q (Some s) d Hc). discriminate.
Qed.

Lemma Threads_round_trip d w log :
  ~ invalid_state_raised (Threads.getUser d q (Some s)) w log.
Proof.
  destruct (truthy (param q "code")) eqn:Hc.
  - apply past_the_checks_not_raised, Threads_good_state; [exact Hc|exact check_passes].
  - rewrite (Threads_no_code q (Some s) d Hc). discriminate.
Qed.

End RoundTrip.

(** C8, where the code departs from it. [getRedirectUrl] with a state
    writes the state (and, for TikTok, the client key) into the redirect
    options the constructor derived from the configuration. On one driver, a
    call without a state answers differently before and after a call with the
    state ["s1"]: afterwards its URL carries [state=s1]. *)
Theorem getRedirectUrl_state_leaks :
  let d0 := LinkedIn.constructor sample_config in
  let first := LinkedIn.getRedirectUrl None d0 in
  let second := LinkedIn.getRedirectUrl (Some "s1") (snd first) in
  let third := LinkedIn.getRedirectUrl None (snd second) in
  let t0 := TikTok.constructor sample_config in
  let first' := TikTok.getRedirectUrl None t0 in
  let second' := TikTok.getRedirectUrl (Some "s1") (snd first') in
  let third' := TikTok.getRedirectUrl None (snd second') in
  (LinkedIn._redirectUriOptions d0 !! "state" = None /\
   LinkedIn._redirectUriOptions (snd third) !! "state" = Some "s1" /\
   OAuth2Scheme.url_query (fst first) !! "state" = None /\
   OAuth2Scheme.url_query (fst third) !! "state" = Some "s1") /\
  (TikTok._redirectUriOptions t0 !! "state" = None /\
   TikTok._redirectUriOptions (snd third') !! "state" = Some "s1" /\
   TikTok._redirectUriOptions (snd third') !! "client_key" = Some "client-1" /\
   OAuth2Scheme.url_query (fst first') !! "state" = None /\
   OAuth2Scheme.url_query (fst third') !! "state" = Some "s1").
Proof. cbv zeta. repeat split; vm_compute; reflexivity. Qed.

(** C9, as the drivers implement it. For every non-empty state handed to
    [getRedirectUrl], the query of the redirect URL holds that very string
    under [state]; and when the callback returns that string, [getUser]
    called with it as the original state does not end in an invalid state
    exception. *)
Theorem getRedirectUrl_state_round_trip (s : string) :
  s <> "" ->
  state_round_trip LinkedIn.getRedirectUrl LinkedIn.getUser s /\
  state_round_trip ThreadsBasic.getRedirectUrl ThreadsBasic.getUser s /\
  state_round_trip TikTok.getRedirectUrl TikTok.getUser s /\
  state_round_trip Threads.getRedirectUrl Threads.getUser s.
Proof.
  intros Hs. unfold state_round_trip. split; [|split; [|split]]; (split; [intros d|]).
  - rewrite LinkedIn_getRedirectUrl_query, (LinkedIn_redirect_options_state s Hs).
    apply query_lookup_extra; [discriminate|]. apply lookup_insert_eq.
  - intros d q w log Hq. apply LinkedIn_round_trip. exact Hq.
  - rewrite ThreadsBasic_getRedirectUrl_query, (ThreadsBasic_redirect_options_state s Hs).
    apply query_lookup_extra; [discriminate|].
    rewrite lookup_insert_ne by discriminate. apply lookup_insert_eq.
  - intros d q w log Hq. apply ThreadsBasic_round_trip. exact Hq.
  - rewrite TikTok_getRedirectUrl_query, (TikTok_redirect_options_state s Hs).
    apply query_lookup_extra; [discriminate|].
    rewrite lookup_insert_ne by discriminate. apply lookup_insert_eq.
  - intros d q w log Hq. apply TikTok_round_trip. exact Hq.
  - rewrite Threads_getRedirectUrl_query, (Threads_redirect_options_state s Hs).
    apply query_lookup_extra; [discriminate|].
    rewrite lookup_insert_ne by discriminate. apply lookup_insert_eq.
  - intros d q w log Hq. apply Threads_round_trip. exact Hq.
Qed.

Lemma getRedirectUrl_state_round_trip_witness :
  "xyz" <> "" /\
  state_round_trip ThreadsBasic.getRedirectUrl ThreadsBasic.getUser "xyz".
Proof.
  split; [discriminate|].
  apply (getRedirectUrl_state_round_trip "xyz"). discriminate.
Defined.

(** C9 as stated fails for the empty state: handed the string [""],
    [getRedirectUrl] puts no [state] parameter in the URL. *)
Lemma getRedirectUrl_empty_state_dropped :
  OAuth2Scheme.url_query
    (fst (LinkedIn.getRedirectUrl (Some "") (LinkedIn.constructor sample_config)))
    !! "state" = None /\
  OAuth2Scheme.url_query
    (fst (ThreadsBasic.getRedirectUrl (Some "") (ThreadsBasic.constructor sample_config)))
    !! "state" = None.
Proof. split; vm_compute; reflexivity. Qed.

(** ** The client key of Threads and TikTok *)

Section ClientKey.

Variable cfg : config.
Hypothesis no_state : cfg_options cfg !! "state" = None.
Hypothesis no_client_key : cfg_options cfg !! "client_key" = None.

Lemma configured_options_bare :
  merge_response_type (cfg_options cfg) !! "state" = None /\
  merge_response_type (cfg_options cfg) !! "client_key" = None.
Proof.
  split; rewrite merge_response_type_lookup by discriminate; assumption.
Qed.

Lemma inserted_state_and_client_key (options : gmap string string) k s :
  (<["client_key" := k]> (<["state" := s]> options)) !! "state" = Some s /\
  (<["client_key" := k]> (<["state" := s]> options)) !! "client_key" = Some k.
Proof.
  split; [rewrite lookup_insert_ne by discriminate|]; apply lookup_insert_eq.
Qed.

End ClientKey.

(** C10, where the code departs from it. On a driver of TikTok or Threads
    fresh from its constructor, a call of [getRedirectUrl] without a state
    uses options that hold neither [state] nor [client_key]. After one call
    with the state ["s1"] the same call without a state uses options that
    hold [state=s1] and [client_key] set to the client id, and so does its
    URL: [Object.assign] has written both into the options of the driver. *)
Theorem client_key_leaks_into_stateless_call :
  let t0 := TikTok.constructor sample_config in
  let t1 := snd (TikTok.getRedirectUrl (Some "s1") t0) in
  let d0 := Threads.constructor sample_config in
  let d1 := snd (Threads.getRedirectUrl (Some "s1") d0) in
  let b0 := ThreadsBasic.constructor sample_config in
  let b1 := snd (ThreadsBasic.getRedirectUrl (Some "s1") b0) in
  (fst (TikTok.redirect_options None t0) !! "state" = None /\
   fst (TikTok.redirect_options None t0) !! "client_key" = None /\
   fst (TikTok.redirect_options None t1) !! "state" = Some "s1" /\
   fst (TikTok.redirect_options None t1) !! "client_key" = Some "client-1" /\
   OAuth2Scheme.url_query (fst (TikTok.getRedirectUrl None t1)) !! "client_key"
   = Some "client-1") /\
  (fst (Threads.redirect_options None d0) !! "state" = None /\
   fst (Threads.redirect_options None d0) !! "client_key" = None /\
   fst (Threads.redirect_options None d1) !! "state" = Some "s1" /\
   fst (Threads.redirect_options None d1) !! "client_key" = Some "client-1" /\
   OAuth2Scheme.url_query (fst (Threads.getRedirectUrl None d1)) !! "client_key"
   = Some "client-1") /\
  (fst (ThreadsBasic.redirect_options None b0) !! "state" = None /\
   fst (ThreadsBasic.redirect_options None b0) !! "client_key" = None /\
   fst (ThreadsBasic.redirect_options None b1) !! "state" = Some "s1" /\
   fst (ThreadsBasic.redirect_options None b1) !! "client_key" = Some "client-1" /\
   OAuth2Scheme.url_query (fst (ThreadsBasic.getRedirectUrl None b1)) !! "client_key"
   = Some "client-1").
Proof. cbv zeta. repeat split; vm_compute; reflexivity. Qed.

(** On a driver of Threads or TikTok fresh from its constructor, for every
    configuration: a call of [getRedirectUrl] without a state, or with the
    empty one, uses the configured options with [response_type=code] merged
    under them and nothing else, so [state] and [client_key] are among them
    only when the configuration sets them; a call with a non-empty state
    uses these options with [state] set to it and [client_key] set to the
    configured client id. *)
Theorem fresh_driver_redirect_options (cfg : config) :
  fresh_redirect_options cfg
    (fun state => fst (ThreadsBasic.redirect_options state (ThreadsBasic.constructor cfg))) /\
  fresh_redirect_options cfg
    (fun state => fst (TikTok.redirect_options state (TikTok.constructor cfg))) /\
  fresh_redirect_options cfg
    (fun state => fst (Threads.redirect_options state (Threads.constructor cfg))).
Proof.
  unfold fresh_redirect_options.
  split; [|split]; (split; [intros state Hf|intros s Hne]).
  - destruct (falsy_optional state Hf) as [->| ->]; reflexivity.
  - rewrite (ThreadsBasic_redirect_options_state s Hne). reflexivity.
  - destruct (falsy_optional state Hf) as [->| ->]; reflexivity.
  - rewrite (TikTok_redirect_options_state s Hne). reflexivity.
  - destruct (falsy_optional state Hf) as [->| ->]; reflexivity.
  - rewrite (Threads_redirect_options_state s Hne). reflexivity.
Qed.

(** * Further properties of the drivers *)

(** ** The successful flows of [getUser] *)

Lemma LinkedIn_build_Ok userProfile email token u :
  LinkedIn._buildAllyUser userProfile email token = Ok u ->
  _original u = userProfile /\
  _userFields u !! 0%nat = Some (prop userProfile "id") /\
  tk_accessToken (_tokenFields u) = prop token "accessToken" /\
  tk_refreshToken (_tokenFields u) = prop token "refreshToken".
Proof.
  unfold LinkedIn._buildAllyUser. intros H.
  apply result_bind_Ok in H as (elements & _ & H).
  apply result_bind_Ok in H as (emailAddress & _ & H).
  apply result_bind_Ok in H as (id & Hid & H).
  apply result_bind_Ok in H as (firstName & _ & H).
  apply result_bind_Ok in H as (lastName & _ & H).
  apply result_bind_Ok in H as (accessToken & Ha & H).
  apply result_bind_Ok in H as (refreshToken & Hr & H).
  apply get_Ok in Hid as [_ ->]. apply get_Ok in Ha as [_ ->]. apply get_Ok in Hr as [_ ->].
  injection H as <-. repeat split.
Qed.

(** Every successful [getUser] of LinkedIn sent exactly three requests, in
    this order: the exchange of the code, the profile fetch and the e-mail
    fetch, both fetches with the access token of the exchange as bearer
    token. The user is the mapping of the two responses and holds that
    access token. *)
Theorem LinkedIn_getUser_chain (d : LinkedIn.driver) (q : gmap string string)
    (orig : option string) (w : world) (log log' : list request) (u : AllyUser) :
  LinkedIn.getUser d q orig w log = (Ok u, log') ->
  exists (code : string) (accessTokenResponse userProfile email : value),
    let codeExchange :=
      AccessTokenRequest (VStr code) (LinkedIn._redirectUri d)
        (VObj [("grant_type", VStr "authorization_code")]) in
    let headers :=
      [("x-li-format", VStr "json");
       ("Authorization",
        VStr ("Bearer " +:+ toString (prop accessTokenResponse "accessToken")))] in
    let profileFetch :=
      GotRequest
        ("https://api.linkedin.com/v2/me?fields="
         +:+ String.concat "," (LinkedIn.fields d)
         +:+ "&projection=(" +:+ String.concat "," (LinkedIn.fields d)
         +:+ "(displayImage~digitalmediaAsset:playableStreams))")
        headers in
    let emailFetch :=
      GotRequest
        "https://api.linkedin.com/v2/clientAwareMemberHandles?q=members&projection=(elements*(primary,type,handle~))"
        headers in
    q !! "code" = Some code /\
    transport w codeExchange = inr accessTokenResponse /\
    transport w profileFetch = inr userProfile /\
    transport w emailFetch = inr email /\
    log' = log ++ [codeExchange; profileFetch; emailFetch] /\
    LinkedIn._buildAllyUser userProfile email accessTokenResponse = Ok u /\
    _original u = userProfile /\
    tk_accessToken (_tokenFields u) = prop accessTokenResponse "accessToken".
Proof.
  unfold LinkedIn.getUser. intros H.
  destruct (truthy (param q "code")) eqn:Hc; simpl in H; [|discriminate].
  destruct (truthy (param q "state") && _); [discriminate|].
  apply param_truthy_inv in Hc as (code & Hq & Hp & _). rewrite Hp in H.
  apply bind_Ok in H as (token & log1 & Hsend & H).
  apply send_Ok in Hsend as [Ht1 ->].
  apply bind_Ok in H as (tok & log2 & Hget & H).
  apply lift_Ok in Hget as [Hget ->]. apply get_Ok in Hget as [_ ->].
  apply bind_Ok in H as (profile & log3 & Hprof & H).
  apply send_Ok in Hprof as [Ht2 ->].
  apply bind_Ok in H as (tok' & log4 & Hget & H).
  apply lift_Ok in Hget as [Hget ->]. apply get_Ok in Hget as [_ ->].
  apply bind_Ok in H as (email & log5 & Hemail & H).
  apply send_Ok in Hemail as [Ht3 ->].
  apply lift_Ok in H as [Hb ->].
  exists code, token, profile, email. cbv zeta.
  destruct (LinkedIn_build_Ok _ _ _ _ Hb) as (Ho & _ & Hk & _).
  repeat split; try assumption.
  rewrite <- !app_assoc. reflexivity.
Qed.

Lemma LinkedIn_getUser_chain_witness :
  exists u log',
    LinkedIn.getUser (LinkedIn.constructor sample_config) sample_callback (Some "s")
      sample_world [] = (Ok u, log') /\
    length log' = 3%nat /\
    _original u = sample_profile /\
    tk_accessToken (_tokenFields u) = VStr "short-T" /\
    log' !! 1%nat
    = Some (GotRequest
              "https://api.linkedin.com/v2/me?fields=id,firstName,lastName,localizedFirstName,localizedLastName,profilePicture&projection=(id,firstName,lastName,localizedFirstName,localizedLastName,profilePicture(displayImage~digitalmediaAsset:playableStreams))"
              [("x-li-format", VStr "json"); ("Authorization", VStr "Bearer short-T")]).
Proof.
  eexists. eexists. split; [vm_compute; reflexivity|].
  destruct (LinkedIn_getUser_chain (LinkedIn.constructor sample_config) sample_callback
              (Some "s") sample_world [] _ _ eq_refl)
    as (code & token & profile & email & _ & Ht & _ & _ & Hlog & _ & Ho & Hk).
  injection Ht as <-.
  split; [exact (f_equal length Hlog)|]. split; [reflexivity|].
  split; [exact Hk|reflexivity].
Defined.

Lemma TikTok_open_id_Ok token v :
  TikTok.open_id token = Ok v ->
  v = prop (prop (prop token "result") "data") "open_id".
Proof.
  unfold TikTok.open_id. intros H.
  apply result_bind_Ok in H as (r & Hr & H). apply get_Ok in Hr as [_ ->].
  apply result_bind_Ok in H as (data & Hd & H). apply get_Ok in Hd as [_ ->].
  apply get_Ok in H as [_ ->]. reflexivity.
Qed.

Lemma TikTok_build_Ok userProfile token u :
  TikTok._buildAllyUser userProfile token = Ok u ->
  _original u = userProfile /\
  _userFields u !! 0%nat = Some (prop (prop (prop token "result") "data") "open_id") /\
  tk_accessToken (_tokenFields u) = prop token "accessToken" /\
  tk_refreshToken (_tokenFields u) = prop token "refreshToken".
Proof.
  unfold TikTok._buildAllyUser. intros H.
  apply result_bind_Ok in H as (id & Hid & H). apply TikTok_open_id_Ok in Hid as ->.
  apply result_bind_Ok in H as (d1 & _ & H).
  apply result_bind_Ok in H as (name & _ & H).
  apply result_bind_Ok in H as (d2 & _ & H).
  apply result_bind_Ok in H as (display & _ & H).
  apply result_bind_Ok in H as (d3 & _ & H).
  apply result_bind_Ok in H as (picture & _ & H).
  apply result_bind_Ok in H as (accessToken & Ha & H).
  apply result_bind_Ok in H as (refreshToken & Hr & H).
  apply get_Ok in Ha as [_ ->]. apply get_Ok in Hr as [_ ->].
  injection H as <-. repeat split.
Qed.

(** Every successful [getUser] of TikTok sent exactly two requests: the
    exchange of the code, then the profile fetch, whose URL names the
    [open_id] found under [result.data] of the token result and whose
    [Access-Token] header is the access token. The id of the user is that
    [open_id], taken from the token result and not from the profile. *)
Theorem TikTok_getUser_chain (d : TikTok.driver) (q : gmap string string)
    (orig : option string) (w : world) (log log' : list request) (u : AllyUser) :
  TikTok.getUser d q orig w log = (Ok u, log') ->
  exists (code : string) (accessTokenResponse userProfile : value),
    let open_id := prop (prop (prop accessTokenResponse "result") "data") "open_id" in
    let codeExchange :=
      AccessTokenRequest (VStr code) (TikTok._redirectUri d)
        (VObj [("grant_type", VStr "authorization_code");
               ("headers", VObj [("Content-Type", VStr "application/json")])]) in
    let profileFetch :=
      GotRequest
        ("https://business-api.tiktok.com/open_api/v1.3/business/get/?business_id="
         +:+ toString open_id +:+ "&fields=["
         +:+ dquote +:+ "username" +:+ dquote +:+ ", "
         +:+ dquote +:+ "display_name" +:+ dquote +:+ ", "
         +:+ dquote +:+ "profile_image" +:+ dquote +:+ ", "
         +:+ dquote +:+ "followers_count" +:+ dquote +:+ "]")
        [("Content-Type", VStr "application/json");
         ("Access-Token", prop accessTokenResponse "accessToken")] in
    q !! "code" = Some code /\
    transport w codeExchange = inr accessTokenResponse /\
    transport w profileFetch = inr userProfile /\
    log' = log ++ [codeExchange; profileFetch] /\
    _original u = userProfile /\
    _userFields u !! 0%nat = Some open_id /\
    tk_accessToken (_tokenFields u) = prop accessTokenResponse "accessToken".
Proof.
  unfold TikTok.getUser. intros H.
  destruct (truthy (param q "code")) eqn:Hc; simpl in H; [|discriminate].
  destruct (truthy (param q "state") && _); [discriminate|].
  apply param_truthy_inv in Hc as (code & Hq & Hp & _). rewrite Hp in H.
  apply bind_Ok in H as (token & log1 & Hsend & H).
  apply send_Ok in Hsend as [Ht1 ->].
  apply bind_Ok in H as (profile & log2 & Hprof & H).
  unfold TikTok._getUserProfile in Hprof.
  apply bind_Ok in Hprof as (id & log3 & Hid & Hprof).
  apply lift_Ok in Hid as [Hid ->]. apply TikTok_open_id_Ok in Hid as ->.
  apply bind_Ok in Hprof as (tok & log4 & Hget & Hprof).
  apply lift_Ok in Hget as [Hget ->]. apply get_Ok in Hget as [_ ->].
  apply send_Ok in Hprof as [Ht2 ->].
  apply lift_Ok in H as [Hb ->].
  destruct (TikTok_build_Ok _ _ _ Hb) as (Ho & Hi & Hk & _).
  exists code, token, profile. cbv zeta.
  repeat split; try assumption.
  rewrite <- !app_assoc. reflexivity.
Qed.

Lemma TikTok_getUser_chain_witness :
  exists u log',
    TikTok.getUser (TikTok.constructor sample_config) sample_callback (Some "s")
      sample_world [] = (Ok u, log') /\
    length log' = 2%nat /\
    _userFields u !! 0%nat = Some (VStr "42").
Proof.
  eexists. eexists. split; [vm_compute; reflexivity|].
  destruct (TikTok_getUser_chain (TikTok.constructor sample_config) sample_callback
              (Some "s") sample_world [] _ _ eq_refl)
    as (code & token & profile & _ & Ht & _ & Hlog & _ & Hi & _).
  injection Ht as <-.
  split; [exact (f_equal length Hlog)|exact Hi].
Defined.

Lemma ThreadsBasic_build_Ok userProfile token u :
  ThreadsBasic._buildAllyUser userProfile token = Ok u ->
  u = {| _original := userProfile;
         _userFields := [prop userProfile "id"; prop userProfile "username"; VNull;
                         prop userProfile "name";
                         prop userProfile "threads_profile_picture_url"];
         _tokenFields := setToken (prop token "accessToken") VNull VNull (Expires VNull);
         user_tokenInfo := None |}.
Proof.
  unfold ThreadsBasic._buildAllyUser. intros H.
  apply result_bind_Ok in H as (id & Hid & H). apply get_Ok in Hid as [_ ->].
  apply result_bind_Ok in H as (username & Hu & H). apply get_Ok in Hu as [_ ->].
  apply result_bind_Ok in H as (name & Hn & H). apply get_Ok in Hn as [_ ->].
  apply result_bind_Ok in H as (picture & Hp & H). apply get_Ok in Hp as [_ ->].
  apply result_bind_Ok in H as (accessToken & Ha & H). apply get_Ok in Ha as [_ ->].
  injection H as <-. reflexivity.
Qed.

(** Every successful [getUser] of the Threads driver of part_000 sent exactly
    two requests: the exchange of the code, then the profile fetch whose URL
    carries the access token of the exchange. The user holds that token with
    no refresh token and no expiry, whatever the token result says. *)
Theorem ThreadsBasic_getUser_chain (d : ThreadsBasic.driver) (q : gmap string string)
    (orig : option string) (w : world) (log log' : list request) (u : AllyUser) :
  ThreadsBasic.getUser d q orig w log = (Ok u, log') ->
  exists (code : string) (accessTokenResponse userProfile : value),
    let codeExchange :=
      AccessTokenRequest (VStr code) (ThreadsBasic._redirectUri d)
        (VObj [("grant_type", VStr "authorization_code");
               ("headers", VObj [("Content-Type", VStr "application/json")])]) in
    let profileFetch :=
      GotRequest
        ("https://graph.threads.net/v1.0/me?fields=id,username,name,threads_profile_picture_url,threads_biography&access_token="
         +:+ toString (prop accessTokenResponse "accessToken"))
        [("Content-Type", VStr "application/json")] in
    q !! "code" = Some code /\
    transport w codeExchange = inr accessTokenResponse /\
    transport w profileFetch = inr userProfile /\
    log' = log ++ [codeExchange; profileFetch] /\
    _original u = userProfile /\
    _tokenFields u
    = setToken (prop accessTokenResponse "accessToken") VNull VNull (Expires VNull).
Proof.
  unfold ThreadsBasic.getUser. intros H.
  destruct (truthy (param q "code")) eqn:Hc; simpl in H; [|discriminate].
  destruct (truthy (param q "state") && _); [discriminate|].
  apply param_truthy_inv in Hc as (code & Hq & Hp & _). rewrite Hp in H.
  apply bind_Ok in H as (token & log1 & Hsend & H).
  apply send_Ok in Hsend as [Ht1 ->].
  apply bind_Ok in H as (profile & log2 & Hprof & H).
  unfold ThreadsBasic._getUserProfile in Hprof.
  apply bind_Ok in Hprof as (tok & log4 & Hget & Hprof).
  apply lift_Ok in Hget as [Hget ->]. apply get_Ok in Hget as [_ ->].
  apply send_Ok in Hprof as [Ht2 ->].
  apply lift_Ok in H as [Hb ->].
  apply ThreadsBasic_build_Ok in Hb as ->.
  exists code, token, profile. cbv zeta.
  repeat split; try assumption.
  rewrite <- !app_assoc. reflexivity.
Qed.

Lemma ThreadsBasic_getUser_chain_witness :
  exists u log',
    ThreadsBasic.getUser (ThreadsBasic.constructor sample_config) sample_callback
      (Some "s") sample_world [] = (Ok u, log') /\
    length log' = 2%nat /\
    tk_expires (_tokenFields u) = Expires VNull.
Proof.
  eexists. eexists. split; [vm_compute; reflexivity|].
  destruct (ThreadsBasic_getUser_chain (ThreadsBasic.constructor sample_config)
              sample_callback (Some "s") sample_world [] _ _ eq_refl)
    as (code & token & profile & _ & _ & _ & Hlog & _ & Hk).
  split; [exact (f_equal length Hlog)|exact (f_equal tk_expires Hk)].
Defined.

(** ** How many requests a flow sends *)

Lemma gots_at_most_bind {A B : Type} a b (m : M A) (f : A -> M B) :
  gots_at_most a m -> (forall x, gots_at_most b (f x)) ->
  gots_at_most (a + b) (m ≫= f).
Proof.
  intros Hm Hf w log. rewrite bind_run.
  destruct (Hm w log) as (e1 & H1 & L1 & F1).
  destruct (m w log) as [[x|e] log1]; simpl in H1; subst log1.
  - destruct (Hf x w (log ++ e1)) as (e2 & H2 & L2 & F2).
    exists (e1 ++ e2). rewrite H2, app_assoc. split; [reflexivity|].
    split; [rewrite length_app; lia|]. apply Forall_app. split; assumption.
  - exists e1. simpl. split; [reflexivity|]. split; [lia|exact F1].
Qed.

Lemma gots_at_most_weaken {A : Type} a b (m : M A) :
  (a <= b)%nat -> gots_at_most a m -> gots_at_most b m.
Proof.
  intros Hab Hm w log. destruct (Hm w log) as (e & H & L & F).
  exists e. split; [exact H|]. split; [lia|exact F].
Qed.

Lemma gots_at_most_quiet {A : Type} (m : M A) :
  (forall w log, snd (m w log) = log) -> gots_at_most 0 m.
Proof.
  intros H w log. exists []. rewrite H, app_nil_r.
  split; [reflexivity|]. split; [simpl; lia|constructor].
Qed.

Lemma gots_at_most_got url headers : gots_at_most 1 (got url headers).
Proof.
  intros w log. exists [GotRequest url headers]. split; [reflexivity|].
  split; [simpl; lia|]. constructor; [exact I|constructor].
Qed.

Ltac gots_steps :=
  repeat first
    [ apply gots_at_most_got
    | apply gots_at_most_quiet; reflexivity
    | apply gots_at_most_bind; [|intros ?] ].

Lemma LinkedIn_after_exchange_gots d token :
  gots_at_most 2
    (accessToken ← lift (get token "accessToken");
     userProfile ← LinkedIn._getUserProfile d accessToken;
     accessToken' ← lift (get token "accessToken");
     emailAddress ← LinkedIn._getUserEmail d accessToken';
     lift (LinkedIn._buildAllyUser userProfile emailAddress token)).
Proof.
  apply (gots_at_most_weaken (0 + (1 + (0 + (1 + 0))))); [simpl; lia|].
  unfold LinkedIn._getUserProfile, LinkedIn._getUserEmail. gots_steps.
Qed.

Lemma ThreadsBasic_profile_gots d token :
  gots_at_most 1 (ThreadsBasic._getUserProfile d token).
Proof.
  apply (gots_at_most_weaken (0 + 1)); [simpl; lia|].
  unfold ThreadsBasic._getUserProfile. gots_steps.
Qed.

Lemma TikTok_profile_gots d token : gots_at_most 1 (TikTok._getUserProfile d token).
Proof.
  apply (gots_at_most_weaken (0 + (0 + 1))); [simpl; lia|].
  unfold TikTok._getUserProfile. gots_steps.
Qed.

Lemma Threads_exchange_gots d token :
  gots_at_most 1 (Threads._exchangeForLongLivedToken d token).
Proof.
  apply (gots_at_most_weaken (1 + (0 + (0 + (0 + (0 + (0 + 0))))))); [simpl; lia|].
  unfold Threads._exchangeForLongLivedToken, Threads.token_of_body. gots_steps.
Qed.

Lemma exchange_then_gots_bind {A : Type} n code redirectUri extras (k : value -> M A) :
  (forall token, gots_at_most n (k token)) ->
  exchange_then_gots n (AccessTokenRequest code redirectUri extras)
    (OAuth2Scheme.getAccessToken code redirectUri extras ≫= k).
Proof.
  intros Hk w log. right. rewrite bind_run.
  unfold OAuth2Scheme.getAccessToken, send.
  destruct (transport w _) as [message|token].
  - exists []. simpl. split; [reflexivity|]. split; [lia|constructor].
  - destruct (Hk token w (log ++ [AccessTokenRequest code redirectUri extras]))
      as (gots & H & L & F).
    exists gots. rewrite H, <- app_assoc. split; [reflexivity|]. split; assumption.
Qed.

Lemma exchange_then_gots_throw {A : Type} n exchange e :
  exchange_then_gots n exchange (throw e : M A).
Proof. intros w log. left. reflexivity. Qed.

(** A run of [getUser] sends nothing (the callback was turned down), or it
    sends the exchange of the callback's code first and only once, followed
    by nothing but [got] requests: at most two for LinkedIn and for Threads
    with the long-lived exchange, at most one for TikTok and for Threads of
    part_000. The log it was started with is kept as it is. *)
Theorem getUser_exchange_then_fetches (q : gmap string string) (orig : option string) :
  (forall d,
     exchange_then_gots 2
       (AccessTokenRequest (param q "code") (LinkedIn._redirectUri d)
          (VObj [("grant_type", VStr "authorization_code")]))
       (LinkedIn.getUser d q orig)) /\
  (forall d,
     exchange_then_gots 1
       (AccessTokenRequest (param q "code") (ThreadsBasic._redirectUri d)
          ThreadsBasic.token_extras)
       (ThreadsBasic.getUser d q orig)) /\
  (forall d,
     exchange_then_gots 1
       (AccessTokenRequest (param q "code") (TikTok._redirectUri d) TikTok.token_extras)
       (TikTok.getUser d q orig)) /\
  (forall d,
     exchange_then_gots 2
       (AccessTokenRequest (param q "code") (Threads._redirectUri d) Threads.token_extras)
       (Threads.getUser d q orig)).
Proof.
  split; [|split; [|split]]; intros d.
  - unfold LinkedIn.getUser.
    destruct (negb _); [apply exchange_then_gots_throw|].
    destruct (truthy _ && _); [apply exchange_then_gots_throw|].
    apply exchange_then_gots_bind. intros token. apply LinkedIn_after_exchange_gots.
  - unfold ThreadsBasic.getUser.
    destruct (negb _); [apply exchange_then_gots_throw|].
    destruct (truthy _ && _); [apply exchange_then_gots_throw|].
    apply exchange_then_gots_bind. intros token.
    apply (gots_at_most_weaken (1 + 0)); [simpl; lia|].
    apply gots_at_most_bind; [apply ThreadsBasic_profile_gots|intros ?].
    apply gots_at_most_quiet. reflexivity.
  - unfold TikTok.getUser.
    destruct (negb _); [apply exchange_then_gots_throw|].
    destruct (truthy _ && _); [apply exchange_then_gots_throw|].
    apply exchange_then_gots_bind. intros token.
    apply (gots_at_most_weaken (1 + 0)); [simpl; lia|].
    apply gots_at_most_bind; [apply TikTok_profile_gots|intros ?].
    apply gots_at_most_quiet. reflexivity.
  - unfold Threads.getUser.
    destruct (negb _); [apply exchange_then_gots_throw|].
    destruct (truthy _ && _); [apply exchange_then_gots_throw|].
    apply exchange_then_gots_bind. intros token.
    apply (gots_at_most_weaken (0 + (1 + (1 + 0)))); [simpl; lia|].
    apply gots_at_most_bind; [apply gots_at_most_quiet; reflexivity|intros ?].
    apply gots_at_most_bind; [apply Threads_exchange_gots|intros ?].
    apply gots_at_most_bind; [apply gots_at_most_got|intros ?].
    apply gots_at_most_quiet. reflexivity.
Qed.

(** ** A failed exchange of the code *)

Lemma param_present (q : gmap string string) k s : q !! k = Some s -> param q k = VStr s.
Proof. unfold param. intros ->. reflexivity. Qed.

Lemma state_check_false (q : gmap string string) orig :
  ~ state_mismatch q orig ->
  truthy (param q "state") && negb (strict_eq (optional orig) (param q "state")) = false.
Proof.
  intros H. destruct (truthy _ && _) eqn:C; [|reflexivity].
  exfalso. apply H, state_check_true. exact C.
Qed.

Lemma failed_exchange_stops {A : Type} code redirectUri extras (k : value -> M A)
    w message :
  transport w (AccessTokenRequest code redirectUri extras) = inl message ->
  forall log,
    (OAuth2Scheme.getAccessToken code redirectUri extras ≫= k) w log
    = (Throw (TokenExchangeException (VStr message)),
       log ++ [AccessTokenRequest code redirectUri extras]).
Proof.
  intros Ht log. rewrite bind_run. unfold OAuth2Scheme.getAccessToken, send.
  rewrite Ht. reflexivity.
Qed.

(** When the callback passes both checks and the exchange of its code
    fails, [getUser] ends in the token exchange exception that carries the
    transport's message; the exchange is the only request sent: it is not
    tried again and no profile is fetched. *)
Theorem getUser_failed_exchange_stops (q : gmap string string) (orig : option string)
    (code message : string) (w : world) :
  q !! "code" = Some code -> code <> "" -> ~ state_mismatch q orig ->
  (forall d,
     let exchange :=
       AccessTokenRequest (VStr code) (LinkedIn._redirectUri d)
         (VObj [("grant_type", VStr "authorization_code")]) in
     transport w exchange = inl message ->
     stops_at_failed_exchange (LinkedIn.getUser d q orig) w exchange message) /\
  (forall d,
     let exchange :=
       AccessTokenRequest (VStr code) (ThreadsBasic._redirectUri d)
         ThreadsBasic.token_extras in
     transport w exchange = inl message ->
     stops_at_failed_exchange (ThreadsBasic.getUser d q orig) w exchange message) /\
  (forall d,
     let exchange :=
       AccessTokenRequest (VStr code) (TikTok._redirectUri d) TikTok.token_extras in
     transport w exchange = inl message ->
     stops_at_failed_exchange (TikTok.getUser d q orig) w exchange message) /\
  (forall d,
     let exchange :=
       AccessTokenRequest (VStr code) (Threads._redirectUri d) Threads.token_extras in
     transport w exchange = inl message ->
     stops_at_failed_exchange (Threads.getUser d q orig) w exchange message).
Proof.
  intros Hq Hne Hm.
  pose proof (truthy_param_code q code Hq Hne) as Hc.
  pose proof (state_check_false q orig Hm) as C.
  pose proof (param_present q "code" code Hq) as Hp.
  split; [|split; [|split]]; intros d exchange Ht log; subst exchange.
  - unfold LinkedIn.getUser. rewrite Hc, C, Hp. simpl.
    apply failed_exchange_stops. exact Ht.
  - unfold ThreadsBasic.getUser. rewrite Hc, C, Hp. simpl.
    apply failed_exchange_stops. exact Ht.
  - unfold TikTok.getUser. rewrite Hc, C, Hp. simpl.
    apply failed_exchange_stops. exact Ht.
  - unfold Threads.getUser. rewrite Hc, C, Hp. simpl.
    apply failed_exchange_stops. exact Ht.
Qed.

Lemma getUser_failed_exchange_stops_witness :
  sample_callback !! "code" = Some "c" /\
  stops_at_failed_exchange
    (Threads.getUser (Threads.constructor sample_config) sample_callback (Some "s"))
    failing_world
    (AccessTokenRequest (VStr "c") "https://app.example/callback" Threads.token_extras)
    "invalid_grant".
Proof.
  split; [reflexivity|].
  apply (getUser_failed_exchange_stops sample_callback (Some "s") "c" "invalid_grant"
           failing_world);
    [reflexivity|discriminate|apply no_mismatch_with_itself; reflexivity|reflexivity].
Defined.

(** ** What [getUserByToken] sends and raises *)

Lemma got_fetch_failure url headers : raises_only fetch_failure (got url headers).
Proof. apply raises_only_send. intros message. exact I. Qed.

Ltac fetch_failure_steps :=
  repeat first
    [ apply got_fetch_failure
    | apply raises_only_lift;
      first [ apply LinkedIn_build_throws_only
            | apply ThreadsBasic_build_throws_only
            | apply TikTok_build_throws_only
            | apply TikTok_open_id_throws_only
            | apply Threads_build_throws_only
            | apply throws_only_get ]; exact I
    | apply raises_only_bind; [|intros ?] ].

(** [getUserByToken] of every driver sends at most one request, a [got]
    request and never an exchange of a code (TikTok's sends none at all), and
    it ends neither in the invalid state exception nor in the token exchange
    exception: its only failures are a failed fetch and a type error. *)
Theorem getUserByToken_fetches_only :
  (forall d accessToken,
     gots_at_most 1 (LinkedIn.getUserByToken d accessToken) /\
     raises_only fetch_failure (LinkedIn.getUserByToken d accessToken)) /\
  (forall d accessToken,
     gots_at_most 1 (ThreadsBasic.getUserByToken d accessToken) /\
     raises_only fetch_failure (ThreadsBasic.getUserByToken d accessToken)) /\
  (forall d accessToken,
     gots_at_most 0 (TikTok.getUserByToken d accessToken) /\
     raises_only fetch_failure (TikTok.getUserByToken d accessToken)) /\
  (forall d accessToken,
     gots_at_most 1 (Threads.getUserByToken d accessToken) /\
     raises_only fetch_failure (Threads.getUserByToken d accessToken)).
Proof.
  split; [|split; [|split]]; intros d accessToken; split.
  - apply (gots_at_most_weaken (1 + 0)); [simpl; lia|].
    unfold LinkedIn.getUserByToken, LinkedIn._getUserProfile. gots_steps.
  - unfold LinkedIn.getUserByToken, LinkedIn._getUserProfile. fetch_failure_steps.
  - apply (gots_at_most_weaken (1 + 0)); [simpl; lia|].
    unfold ThreadsBasic.getUserByToken.
    apply gots_at_most_bind; [apply ThreadsBasic_profile_gots|intros ?].
    apply gots_at_most_quiet. reflexivity.
  - unfold ThreadsBasic.getUserByToken, ThreadsBasic._getUserProfile.
    fetch_failure_steps.
  - apply gots_at_most_quiet. intros w log. reflexivity.
  - unfold TikTok.getUserByToken, TikTok._getUserProfile. fetch_failure_steps.
  - apply (gots_at_most_weaken (1 + 0)); [simpl; lia|].
    unfold Threads.getUserByToken, Threads._getUserProfile. gots_steps.
  - unfold Threads.getUserByToken, Threads._getUserProfile. fetch_failure_steps.
Qed.

(** [getUserByToken] of the Threads driver of part_000 hands the token
    string to [_getUserProfile], which reads [accessToken] of it: whatever
    the token, the one request it sends asks for the profile with
    [access_token=undefined]. A user it returns still holds the token. *)
Theorem ThreadsBasic_getUserByToken_token_not_sent (d : ThreadsBasic.driver)
    (accessToken : string) (w : world) (log : list request) :
  snd (ThreadsBasic.getUserByToken d accessToken w log)
  = log ++ [GotRequest
              "https://graph.threads.net/v1.0/me?fields=id,username,name,threads_profile_picture_url,threads_biography&access_token=undefined"
              [("Content-Type", VStr "application/json")]] /\
  forall u,
    fst (ThreadsBasic.getUserByToken d accessToken w log) = Ok u ->
    tk_accessToken (_tokenFields u) = VStr accessToken.
Proof.
  unfold ThreadsBasic.getUserByToken, ThreadsBasic._getUserProfile, got, send.
  rewrite !bind_run. simpl.
  destruct (transport w _) as [message|userProfile]; simpl.
  - split; [reflexivity|]. intros u H. discriminate H.
  - unfold lift. simpl. split; [reflexivity|]. intros u H.
    apply ThreadsBasic_build_Ok in H as ->. reflexivity.
Qed.

(** ** The code and the message of the redirect error *)

(** A callback whose [code] is the empty string is treated as one without
    a code: [getUser] throws the token exchange exception with the message
    of [parseRedirectError] and sends no request. *)
Theorem getUser_empty_code (q : gmap string string) (orig : option string) :
  q !! "code" = Some "" ->
  (forall d, fails_without_effect (LinkedIn.getUser d q orig)
     (TokenExchangeException (LinkedIn.parseRedirectError q))) /\
  (forall d, fails_without_effect (ThreadsBasic.getUser d q orig)
     (TokenExchangeException (ThreadsBasic.parseRedirectError q))) /\
  (forall d, fails_without_effect (TikTok.getUser d q orig)
     (TokenExchangeException (TikTok.parseRedirectError q))) /\
  (forall d, fails_without_effect (Threads.getUser d q orig)
     (TokenExchangeException (Threads.parseRedirectError q))).
Proof.
  intros Hq.
  assert (truthy (param q "code") = false) as Hc
    by (rewrite (param_present q "code" "" Hq); reflexivity).
  split; [|split; [|split]]; intros d.
  - rewrite (LinkedIn_no_code q orig d Hc). apply fails_without_effect_throw.
  - rewrite (ThreadsBasic_no_code q orig d Hc). apply fails_without_effect_throw.
  - rewrite (TikTok_no_code q orig d Hc). apply fails_without_effect_throw.
  - rewrite (Threads_no_code q orig d Hc). apply fails_without_effect_throw.
Qed.

Lemma getUser_empty_code_witness :
  empty_code_callback !! "code" = Some "" /\
  (forall d, fails_without_effect (TikTok.getUser d empty_code_callback None)
     (TokenExchangeException (VStr "access_denied"))).
Proof.
  split; [reflexivity|].
  apply (getUser_empty_code empty_code_callback None). reflexivity.
Defined.

Lemma redirect_error_message_not_empty field :
  exists s, redirect_error_message field = VStr s /\ s <> "".
Proof.
  unfold redirect_error_message. destruct field as [e|].
  - destruct (String.eqb_spec e "").
    + eexists. split; [reflexivity|discriminate].
    + exists e. split; [reflexivity|assumption].
  - eexists. split; [reflexivity|discriminate].
Qed.

(** The message of [parseRedirectError] is a non-empty string for every
    callback, whatever it holds under the error keys: an empty or missing
    error field gives the generic text. LinkedIn reads [error_description]
    only, so a callback without it gets the generic text there even when it
    has an [error]. *)
Theorem parseRedirectError_not_empty (q : gmap string string) :
  (exists s, LinkedIn.parseRedirectError q = VStr s /\ s <> "") /\
  (exists s, ThreadsBasic.parseRedirectError q = VStr s /\ s <> "") /\
  (exists s, TikTok.parseRedirectError q = VStr s /\ s <> "") /\
  (exists s, Threads.parseRedirectError q = VStr s /\ s <> "") /\
  LinkedIn.parseRedirectError (delete "error_description" q)
  = VStr "Oauth failed during redirect".
Proof.
  unfold LinkedIn.parseRedirectError, ThreadsBasic.parseRedirectError,
    TikTok.parseRedirectError, Threads.parseRedirectError.
  rewrite !js_or_redirect_error_message.
  repeat split; try apply redirect_error_message_not_empty.
  rewrite lookup_delete_eq. reflexivity.
Qed.

(** ** What [getRedirectUrl] leaves in the driver *)

Lemma stateless_redirect_options_LinkedIn state d :
  truthy (optional state) = false ->
  LinkedIn.redirect_options state d = (LinkedIn._redirectUriOptions d, d).
Proof.
  intros H. destruct (falsy_optional state H) as [->| ->]; reflexivity.
Qed.

Lemma stateless_redirect_options_ThreadsBasic state d :
  truthy (optional state) = false ->
  ThreadsBasic.redirect_options state d = (ThreadsBasic._redirectUriOptions d, d).
Proof.
  intros H. destruct (falsy_optional state H) as [->| ->]; reflexivity.
Qed.

Lemma stateless_redirect_options_TikTok state d :
  truthy (optional state) = false ->
  TikTok.redirect_options state d = (TikTok._redirectUriOptions d, d).
Proof.
  intros H. destruct (falsy_optional state H) as [->| ->]; reflexivity.
Qed.

Lemma stateless_redirect_options_Threads state d :
  truthy (optional state) = false ->
  Threads.redirect_options state d = (Threads._redirectUriOptions d, d).
Proof.
  intros H. destruct (falsy_optional state H) as [->| ->]; reflexivity.
Qed.

Lemma LinkedIn_redirect_options_driver s d :
  s <> "" ->
  LinkedIn._redirectUriOptions (snd (LinkedIn.redirect_options (Some s) d))
  = <["state" := s]> (LinkedIn._redirectUriOptions d).
Proof.
  intros Hs. unfold LinkedIn.redirect_options. rewrite (truthy_VStr s Hs). reflexivity.
Qed.

Lemma ThreadsBasic_redirect_options_driver s d :
  s <> "" ->
  ThreadsBasic._redirectUriOptions (snd (ThreadsBasic.redirect_options (Some s) d))
  = <["client_key" := ThreadsBasic._clientId d]>
      (<["state" := s]> (ThreadsBasic._redirectUriOptions d)) /\
  ThreadsBasic._clientId (snd (ThreadsBasic.redirect_options (Some s) d))
  = ThreadsBasic._clientId d.
Proof.
  intros Hs. unfold ThreadsBasic.redirect_options. rewrite (truthy_VStr s Hs).
  split; reflexivity.
Qed.

Lemma TikTok_redirect_options_driver s d :
  s <> "" ->
  TikTok._redirectUriOptions (snd (TikTok.redirect_options (Some s) d))
  = <["client_key" := TikTok._clientId d]>
      (<["state" := s]> (TikTok._redirectUriOptions d)) /\
  TikTok._clientId (snd (TikTok.redirect_options (Some s) d)) = TikTok._clientId d.
Proof.
  intros Hs. unfold TikTok.redirect_options. rewrite (truthy_VStr s Hs).
  split; reflexivity.
Qed.

Lemma Threads_redirect_options_driver s d :
  s <> "" ->
  Threads._redirectUriOptions (snd (Threads.redirect_options (Some s) d))
  = <["client_key" := Threads._clientId d]>
      (<["state" := s]> (Threads._redirectUriOptions d)) /\
  Threads._clientId (snd (Threads.redirect_options (Some s) d)) = Threads._clientId d.
Proof.
  intros Hs. unfold Threads.redirect_options. rewrite (truthy_VStr s Hs).
  split; reflexivity.
Qed.

(** A call of [getRedirectUrl] with a non-empty state stays in the driver:
    the driver's redirect options become the old ones with [state] set to
    the state and, for Threads and TikTok, [client_key] set to the client
    id, every other option kept; each later call without a state uses
    these options, state and client key included, and changes nothing; a
    later call with another state overwrites the state. *)
Theorem getRedirectUrl_state_is_kept (s : string) :
  s <> "" ->
  (forall d,
     state_is_kept LinkedIn._redirectUriOptions LinkedIn.redirect_options
       (fun d => <["state" := s]> (LinkedIn._redirectUriOptions d)) s d) /\
  (forall d,
     state_is_kept ThreadsBasic._redirectUriOptions ThreadsBasic.redirect_options
       (fun d => <["client_key" := ThreadsBasic._clientId d]>
                   (<["state" := s]> (ThreadsBasic._redirectUriOptions d))) s d) /\
  (forall d,
     state_is_kept TikTok._redirectUriOptions TikTok.redirect_options
       (fun d => <["client_key" := TikTok._clientId d]>
                   (<["state" := s]> (TikTok._redirectUriOptions d))) s d) /\
  (forall d,
     state_is_kept Threads._redirectUriOptions Threads.redirect_options
       (fun d => <["client_key" := Threads._clientId d]>
                   (<["state" := s]> (Threads._redirectUriOptions d))) s d).
Proof.
  intros Hs. unfold state_is_kept.
  split; [|split; [|split]]; intros d; cbv zeta.
  - split; [apply LinkedIn_redirect_options_driver; exact Hs|]. split.
    + intros state Hf.
      rewrite (stateless_redirect_options_LinkedIn state _ Hf).
      rewrite (LinkedIn_redirect_options_driver s d Hs). reflexivity.
    + intros s' Hs'. rewrite (LinkedIn_redirect_options_driver s' _ Hs').
      apply lookup_insert_eq.
  - split; [apply ThreadsBasic_redirect_options_driver; exact Hs|]. split.
    + intros state Hf.
      rewrite (stateless_redirect_options_ThreadsBasic state _ Hf).
      destruct (ThreadsBasic_redirect_options_driver s d Hs) as [-> _]. reflexivity.
    + intros s' Hs'.
      destruct (ThreadsBasic_redirect_options_driver s'
                  (snd (ThreadsBasic.redirect_options (Some s) d)) Hs') as [-> _].
      apply inserted_state_and_client_key.
  - split; [apply TikTok_redirect_options_driver; exact Hs|]. split.
    + intros state Hf.
      rewrite (stateless_redirect_options_TikTok state _ Hf).
      destruct (TikTok_redirect_options_driver s d Hs) as [-> _]. reflexivity.
    + intros s' Hs'.
      destruct (TikTok_redirect_options_driver s'
                  (snd (TikTok.redirect_options (Some s) d)) Hs') as [-> _].
      apply inserted_state_and_client_key.
  - split; [apply Threads_redirect_options_driver; exact Hs|]. split.
    + intros state Hf.
      rewrite (stateless_redirect_options_Threads state _ Hf).
      destruct (Threads_redirect_options_driver s d Hs) as [-> _]. reflexivity.
    + intros s' Hs'.
      destruct (Threads_redirect_options_driver s'
                  (snd (Threads.redirect_options (Some s) d)) Hs') as [-> _].
      apply inserted_state_and_client_key.
Qed.

Lemma getRedirectUrl_state_is_kept_witness :
  "s1" <> "" /\
  state_is_kept TikTok._redirectUriOptions TikTok.redirect_options
    (fun d => <["client_key" := TikTok._clientId d]>
                (<["state" := "s1"]> (TikTok._redirectUriOptions d)))
    "s1" (TikTok.constructor sample_config) /\
  fst (TikTok.redirect_options None
         (snd (TikTok.redirect_options (Some "s1") (TikTok.constructor sample_config))))
    !! "client_key" = Some "client-1".
Proof.
  split; [discriminate|].
  pose proof (proj1 (proj2 (proj2 (getRedirectUrl_state_is_kept "s1" ltac:(discriminate))))
                (TikTok.constructor sample_config)) as H.
  split; [exact H|]. destruct H as (_ & Hstateless & _).
  rewrite (Hstateless None eq_refl). reflexivity.
Defined.

(** ** What the constructors derive from the configuration *)

Lemma merge_response_type_default (options : gmap string string) :
  merge_response_type options !! "response_type"
  = Some (default "code" (options !! "response_type")).
Proof.
  unfold merge_response_type. destruct (options !! "response_type") as [v|] eqn:E; simpl.
  - apply lookup_union_Some_l. exact E.
  - rewrite lookup_union_r by exact E. apply lookup_singleton_eq.
Qed.

Lemma size_or_not_empty {A : Type} (l fallback : list A) :
  fallback <> [] -> size_or l fallback <> [] /\ (l = [] \/ size_or l fallback = l).
Proof.
  intros Hf. destruct l as [|x l]; simpl.
  - split; [exact Hf|left; reflexivity].
  - split; [discriminate|right; reflexivity].
Qed.

(** Every constructor keeps the configured redirect options and adds
    [response_type=code] to them; a [response_type] the configuration sets
    itself wins over it. The scope of the driver is the configured list, or
    the driver's default list when none is configured, and is never empty;
    the same holds for the profile fields of LinkedIn. *)
Theorem constructor_options_and_scope (cfg : config) :
  constructed_from cfg (LinkedIn._redirectUriOptions (LinkedIn.constructor cfg))
    (LinkedIn.scope (LinkedIn.constructor cfg)) /\
  constructed_from cfg (ThreadsBasic._redirectUriOptions (ThreadsBasic.constructor cfg))
    (ThreadsBasic.scope (ThreadsBasic.constructor cfg)) /\
  constructed_from cfg (TikTok._redirectUriOptions (TikTok.constructor cfg))
    (TikTok.scope (TikTok.constructor cfg)) /\
  constructed_from cfg (Threads._redirectUriOptions (Threads.constructor cfg))
    (Threads.scope (Threads.constructor cfg)) /\
  LinkedIn.fields (LinkedIn.constructor cfg) <> [] /\
  (cfg_fields cfg = [] \/ LinkedIn.fields (LinkedIn.constructor cfg) = cfg_fields cfg).
Proof.
  unfold constructed_from. simpl.
  repeat split;
    first [ apply merge_response_type_default
          | intros k Hk; apply merge_response_type_lookup; exact Hk
          | apply size_or_not_empty; discriminate ].
Qed.

(** ** The fields LinkedIn maps *)

Lemma find_EMAIL_first elems e : find_EMAIL elems = Ok e -> e = first_EMAIL elems.
Proof.
  unfold first_EMAIL. induction elems as [|x rest IH]; simpl.
  - intros H. injection H as <-. reflexivity.
  - intros H. apply result_bind_Ok in H as (t & Ht & H).
    apply get_Ok in Ht as [_ ->].
    destruct (strict_eq (prop x "type") (VStr "EMAIL")).
    + injection H as <-. reflexivity.
    + apply IH. exact H.
Qed.

Lemma find_by_type_EMAIL_Ok v e :
  find_by_type_EMAIL v = Ok e -> exists elems, v = VArr elems /\ e = first_EMAIL elems.
Proof.
  destruct v; simpl; try discriminate.
  intros H. eexists. split; [reflexivity|]. apply find_EMAIL_first. exact H.
Qed.

Lemma first_localized_value userProfile k v :
  LinkedIn.first_localized userProfile k = Ok v -> v = localized_name userProfile k.
Proof.
  unfold LinkedIn.first_localized, localized_name, first_value. intros H.
  apply result_bind_Ok in H as (name & Hn & H). apply get_Ok in Hn as [_ ->].
  apply result_bind_Ok in H as (localized & Hl & H). apply get_Ok in Hl as [_ ->].
  destruct (nullish _); [discriminate|].
  apply get_Ok in H as [_ ->]. reflexivity.
Qed.

(** Whenever LinkedIn's [_buildAllyUser] returns a user, the e-mail
    resource has an array under [elements], and the arguments it gave to
    [setFields] are: the [id] of the profile; the first localized variant of
    [firstName] and of [lastName]; the [emailAddress] under [handle~] of the
    first element whose [type] is ["EMAIL"] (the flag [primary] is not looked
    at), [undefined] when no element has that type; and twice [null]. *)
Theorem LinkedIn_mapped_fields (userProfile email token : value) (u : AllyUser) :
  LinkedIn._buildAllyUser userProfile email token = Ok u ->
  exists elems,
    prop email "elements" = VArr elems /\
    _userFields u
    = [prop userProfile "id";
       localized_name userProfile "firstName";
       localized_name userProfile "lastName";
       LinkedIn.handle_emailAddress (first_EMAIL elems);
       VNull; VNull] /\
    (Forall (fun e => strict_eq (prop e "type") (VStr "EMAIL") = false) elems ->
     _userFields u !! 3%nat = Some VUndefined).
Proof.
  unfold LinkedIn._buildAllyUser. intros H.
  apply result_bind_Ok in H as (elements & He & H). apply get_Ok in He as [_ ->].
  apply result_bind_Ok in H as (emailAddress & Hf & H).
  apply find_by_type_EMAIL_Ok in Hf as (elems & Hel & ->).
  apply result_bind_Ok in H as (id & Hid & H). apply get_Ok in Hid as [_ ->].
  apply result_bind_Ok in H as (firstName & Hfn & H).
  apply first_localized_value in Hfn as ->.
  apply result_bind_Ok in H as (lastName & Hln & H).
  apply first_localized_value in Hln as ->.
  apply result_bind_Ok in H as (accessToken & _ & H).
  apply result_bind_Ok in H as (refreshToken & _ & H).
  injection H as <-. exists elems. split; [exact Hel|]. split; [reflexivity|].
  intros Hall. simpl. unfold first_EMAIL.
  replace (List.find _ elems) with (@None value); [reflexivity|].
  symmetry. clear Hel. induction Hall as [|x rest Hx _ IH]; simpl; [reflexivity|].
  rewrite Hx. exact IH.
Qed.

Lemma LinkedIn_mapped_fields_witness :
  exists u,
    LinkedIn._buildAllyUser sample_profile sample_email sample_token = Ok u /\
    _userFields u
    = [VStr "42"; VStr "Alice"; VStr "Doe"; VStr "alice@example.com"; VNull; VNull].
Proof.
  eexists. split; [vm_compute; reflexivity|].
  destruct (LinkedIn_mapped_fields sample_profile sample_email sample_token _ eq_refl)
    as (elems & Hel & Hf & _).
  injection Hel as <-. exact Hf.
Defined.

(** The localized name LinkedIn maps is the value listed first in
    [localized]: for an object that lists the locale [k] first the name is
    the value under [k], and for an empty object it is [undefined], not an
    error. *)
Theorem LinkedIn_first_localized_variant (userProfile : value) (field : string)
    (variants : list (string * value)) :
  nullish userProfile = false ->
  nullish (prop userProfile field) = false ->
  prop (prop userProfile field) "localized" = VObj variants ->
  LinkedIn.first_localized userProfile field
  = Ok (default VUndefined (snd <$> head variants)).
Proof.
  intros Hp Hn Hl. unfold LinkedIn.first_localized, first_value.
  rewrite (get_not_nullish _ _ Hp). simpl.
  rewrite (get_not_nullish _ _ Hn). simpl.
  rewrite Hl. destruct variants as [|[k v] rest]; [reflexivity|].
  cbn [nullish get prop first_key assoc head fmap option_fmap option_map snd default].
  rewrite String.eqb_refl. reflexivity.
Qed.

Lemma LinkedIn_first_localized_variant_witness :
  LinkedIn.first_localized sample_profile "firstName" = Ok (VStr "Alice").
Proof.
  apply (LinkedIn_first_localized_variant sample_profile "firstName"
           [("en_US", VStr "Alice")]); reflexivity.
Defined.

(** ** The failures of the mappings *)

(** A mapping that fails, fails with a type error: [_buildAllyUser] of no
    driver raises another exception, whatever the profile, the e-mail
    resource and the token result are. *)
Theorem buildAllyUser_throws_type_errors_only :
  (forall userProfile email token,
     throws_only (fun e => e = TypeError)
       (LinkedIn._buildAllyUser userProfile email token)) /\
  (forall userProfile token,
     throws_only (fun e => e = TypeError)
       (ThreadsBasic._buildAllyUser userProfile token)) /\
  (forall userProfile token,
     throws_only (fun e => e = TypeError) (TikTok._buildAllyUser userProfile token)) /\
  (forall userProfile token,
     throws_only (fun e => e = TypeError) (Threads._buildAllyUser userProfile token)).
Proof.
  split; [|split; [|split]]; intros.
  - apply LinkedIn_build_throws_only. reflexivity.
  - apply ThreadsBasic_build_throws_only. reflexivity.
  - apply TikTok_build_throws_only. reflexivity.
  - apply Threads_build_throws_only. reflexivity.
Qed.

(** ** Refreshing a long-lived token *)

(** A refresh that returns sent one request, to the refresh URL that
    carries the token to refresh and no client secret. The token it returns
    is read off the response body, and its expiry is the clock at the time of
    the call plus the [expires_in] of the body in seconds. *)
Theorem Threads_refreshLongLivedToken_result (d : Threads.driver)
    (longLivedToken : value) (w : world) (log log' : list request)
    (t : Threads.tokenResponse) :
  Threads.refreshLongLivedToken d longLivedToken w log = (Ok t, log') ->
  exists body,
    let refresh :=
      GotRequest
        ("https://graph.threads.net/refresh_access_token?grant_type=th_refresh_token&access_token="
         +:+ toString longLivedToken)
        [("Content-Type", VStr "application/json")] in
    transport w refresh = inr body /\
    log' = log ++ [refresh] /\
    t = {| Threads.tr_accessToken := prop body "access_token";
           Threads.tr_tokenType := prop body "token_type";
           Threads.tr_expiresIn := prop body "expires_in";
           Threads.tr_expiresAt := Some (NewDate (clock w) (prop body "expires_in")) |}.
Proof.
  unfold Threads.refreshLongLivedToken. intros H.
  apply bind_Ok in H as (body & log1 & Hsend & Htok).
  apply send_Ok in Hsend as [Ht ->].
  apply token_of_body_Ok in Htok as (_ & -> & ->).
  exists body. cbv zeta. split; [exact Ht|]. split; reflexivity.
Qed.

Lemma Threads_refreshLongLivedToken_result_witness :
  exists t log',
    Threads.refreshLongLivedToken (Threads.constructor sample_config) (VStr "long-T")
      token_world [] = (Ok t, log') /\
    Threads.tr_expiresAt t = Some (NewDate 1700000000000 (VNum 5184000)).
Proof.
  eexists. eexists. split; [vm_compute; reflexivity|].
  destruct (Threads_refreshLongLivedToken_result (Threads.constructor sample_config)
              (VStr "long-T") token_world [] _ _ eq_refl) as (body & Ht & _ & Hr).
  injection Ht as <-. exact (f_equal Threads.tr_expiresAt Hr).
Defined.

Lemma shouldRefreshToken_after w n :
  Threads.shouldRefreshToken w (clock w + n * 1000) = true <-> 0 < n <= 86400.
Proof.
  unfold Threads.shouldRefreshToken. cbv zeta.
  rewrite andb_true_iff, Z.leb_le, Z.gtb_lt. lia.
Qed.

(** A token fresh from the long-lived exchange or from a refresh, whose
    lifetime [expires_in] is the number [n] of seconds, expires at the clock
    plus [n * 1000] milliseconds; asked at that moment, [shouldRefreshToken]
    answers [true] exactly when the lifetime is positive and at most one
    day. *)
Theorem Threads_fresh_token_refresh (d : Threads.driver) (token : value) (w : world)
    (log log' : list request) (t : Threads.tokenResponse) (n : Z) :
  Threads._exchangeForLongLivedToken d token w log = (Ok t, log') \/
  Threads.refreshLongLivedToken d token w log = (Ok t, log') ->
  Threads.tr_expiresIn t = VNum n ->
  (Threads.tr_expiresAt t ≫= date_time) = Some (clock w + n * 1000) /\
  (Threads.shouldRefreshToken w (clock w + n * 1000) = true <-> 0 < n <= 86400).
Proof.
  intros H Hn. split; [|apply shouldRefreshToken_after].
  assert (exists body log0, Threads.token_of_body body w log0 = (Ok t, log'))
    as (body & log0 & Hb).
  { destruct H as [H|H];
      [unfold Threads._exchangeForLongLivedToken in H
      |unfold Threads.refreshLongLivedToken in H];
      apply bind_Ok in H as (body & log1 & _ & Htok);
      exists body, log1; exact Htok. }
  apply token_of_body_Ok in Hb as (_ & _ & ->). simpl in *.
  rewrite Hn. reflexivity.
Qed.

Lemma Threads_fresh_token_refresh_witness :
  exists t log',
    Threads._exchangeForLongLivedToken (Threads.constructor sample_config)
      (VStr "short-T") sample_world [] = (Ok t, log') /\
    Threads.tr_expiresIn t = VNum 5184000 /\
    Threads.shouldRefreshToken sample_world (clock sample_world + 5184000 * 1000)
    = false.
Proof.
  eexists. eexists. split; [vm_compute; reflexivity|]. split; [reflexivity|].
  destruct (Threads_fresh_token_refresh (Threads.constructor sample_config)
              (VStr "short-T") sample_world [] _ _ 5184000
              (or_introl eq_refl) eq_refl) as [_ Hs].
  destruct (Threads.shouldRefreshToken _ _); [|reflexivity].
  exfalso. destruct Hs as [Hs _]. specialize (Hs eq_refl). lia.
Defined.

(** ** A failed fetch ends the flow *)

Lemma failure_is_last_bind {A B : Type} (m : M A) (f : A -> M B) :
  failure_is_last m -> (forall x, failure_is_last (f x)) -> failure_is_last (m ≫= f).
Proof.
  intros Hm Hf w log. rewrite bind_run.
  destruct (Hm w log) as (e1 & H1 & F1).
  destruct (m w log) as [[x|e] log1]; simpl in H1; subst log1.
  - destruct (Hf x w (log ++ e1)) as (e2 & H2 & F2).
    exists (e1 ++ e2). rewrite H2, app_assoc. split; [reflexivity|].
    intros message E. destruct (F2 message E) as (pre & url & headers & -> & Ht).
    exists (e1 ++ pre), url, headers. rewrite app_assoc. split; [reflexivity|exact Ht].
  - exists e1. simpl. split; [reflexivity|].
    intros message E. injection E as ->. apply F1. reflexivity.
Qed.

Lemma failure_is_last_got url headers : failure_is_last (got url headers).
Proof.
  intros w log. exists [GotRequest url headers]. split; [reflexivity|].
  intros message. unfold got, send. simpl.
  destruct (transport w _) as [msg|body] eqn:E; intros H; [|discriminate].
  injection H as ->. exists [], url, headers. split; [reflexivity|exact E].
Qed.

Lemma failure_is_last_getAccessToken code redirectUri extras :
  failure_is_last (OAuth2Scheme.getAccessToken code redirectUri extras).
Proof.
  intros w log. eexists. split; [reflexivity|].
  intros message. unfold OAuth2Scheme.getAccessToken, send. simpl.
  destruct (transport w _); discriminate.
Qed.

Lemma failure_is_last_lift {A : Type} (r : result A) :
  throws_only (fun e => e = TypeError) r -> failure_is_last (lift r).
Proof.
  intros Hr w log. exists []. rewrite app_nil_r. split; [reflexivity|].
  intros message E. specialize (Hr _ E). discriminate Hr.
Qed.

Lemma failure_is_last_quiet {A : Type} (m : M A) :
  (forall w log, snd (m w log) = log) ->
  (forall w log message, fst (m w log) <> Throw (HTTPError message)) ->
  failure_is_last m.
Proof.
  intros Hs Hf w log. exists []. rewrite app_nil_r. split; [apply Hs|].
  intros message E. exfalso. exact (Hf w log message E).
Qed.

Ltac failure_is_last_steps :=
  repeat first
    [ apply failure_is_last_got
    | apply failure_is_last_getAccessToken
    | apply failure_is_last_quiet; [reflexivity|discriminate]
    | apply failure_is_last_lift;
      first [ apply LinkedIn_build_throws_only
            | apply ThreadsBasic_build_throws_only
            | apply TikTok_build_throws_only
            | apply TikTok_open_id_throws_only
            | apply Threads_build_throws_only
            | apply throws_only_get ]; reflexivity
    | apply failure_is_last_bind; [|intros ?] ].

(** No flow goes on after a fetch has failed: when [getUser],
    [getUserByToken] or the refresh of a token ends in an HTTP error, the
    request that failed with that message is the last one in the log; no
    request is sent again and none follows it. Every flow only adds to the log
    it was started with. *)
Theorem http_failure_is_last :
  (forall d q orig, failure_is_last (LinkedIn.getUser d q orig)) /\
  (forall d q orig, failure_is_last (ThreadsBasic.getUser d q orig)) /\
  (forall d q orig, failure_is_last (TikTok.getUser d q orig)) /\
  (forall d q orig, failure_is_last (Threads.getUser d q orig)) /\
  (forall d accessToken, failure_is_last (LinkedIn.getUserByToken d accessToken)) /\
  (forall d accessToken, failure_is_last (ThreadsBasic.getUserByToken d accessToken)) /\
  (forall d accessToken, failure_is_last (TikTok.getUserByToken d accessToken)) /\
  (forall d accessToken, failure_is_last (Threads.getUserByToken d accessToken)) /\
  (forall d token, failure_is_last (Threads.refreshLongLivedToken d token)).
Proof.
  repeat match goal with |- _ /\ _ => split end; intros.
  - unfold LinkedIn.getUser, LinkedIn._getUserProfile, LinkedIn._getUserEmail.
    destruct (negb _); [failure_is_last_steps|].
    destruct (truthy _ && _); failure_is_last_steps.
  - unfold ThreadsBasic.getUser, ThreadsBasic._getUserProfile.
    destruct (negb _); [failure_is_last_steps|].
    destruct (truthy _ && _); failure_is_last_steps.
  - unfold TikTok.getUser, TikTok._getUserProfile.
    destruct (negb _); [failure_is_last_steps|].
    destruct (truthy _ && _); failure_is_last_steps.
  - unfold Threads.getUser, Threads._exchangeForLongLivedToken, Threads.token_of_body,
      Threads._getUserProfile.
    destruct (negb _); [failure_is_last_steps|].
    destruct (truthy _ && _); failure_is_last_steps.
  - unfold LinkedIn.getUserByToken, LinkedIn._getUserProfile. failure_is_last_steps.
  - unfold ThreadsBasic.getUserByToken, ThreadsBasic._getUserProfile.
    failure_is_last_steps.
  - unfold TikTok.getUserByToken, TikTok._getUserProfile. failure_is_last_steps.
  - unfold Threads.getUserByToken, Threads._getUserProfile. failure_is_last_steps.
  - unfold Threads.refreshLongLivedToken, Threads.token_of_body. failure_is_last_steps.
Qed.
